(** * ApolloBot notifications: router, channels and heartbeat

    A shallow embedding of [apollobot/notifications]: the event model
    ([events.py]), the channel base class ([channel.py]), the router
    ([router.py]), the Telegram, Discord and e-mail channels
    ([channels/*.py]) and the heartbeat monitor ([heartbeat.py]).

    Conventions.
    - Python's [dict] is a [gmap]; [list] is [list]; [str] is [string].
    - Clock readings and durations (Python floats holding seconds) are
      integers of a fixed clock resolution; only their order is used.
    - A call either returns or raises an instance of [Exception]
      ([outcome]); the router's handlers are all [except Exception].
    - The asyncio event loop is not part of the repository: what it
      decides (the order in which gathered tasks run, which awaited tasks
      are finished when [asyncio.wait] returns) is an explicit argument.
      A channel coroutine acts on the world in one step. *)

From stdpp Require Import gmap strings list pretty.
From Stdlib Require Import ZArith Lia.

Open Scope string_scope.
Open Scope list_scope.

(** ** events.py *)

Inductive EventType : Type :=
| SESSION_STARTED
| PHASE_STARTED
| PHASE_COMPLETED
| PHASE_FAILED
| CHECKPOINT_APPROVAL
| FINDING
| BUDGET_WARNING
| SESSION_COMPLETED
| SESSION_FAILED
| HEARTBEAT.

(** [EventType.value]: the string each member of the enum carries. *)
Definition EventType_value (t : EventType) : string :=
  match t with
  | SESSION_STARTED => "session_started"
  | PHASE_STARTED => "phase_started"
  | PHASE_COMPLETED => "phase_completed"
  | PHASE_FAILED => "phase_failed"
  | CHECKPOINT_APPROVAL => "checkpoint_approval"
  | FINDING => "finding"
  | BUDGET_WARNING => "budget_warning"
  | SESSION_COMPLETED => "session_completed"
  | SESSION_FAILED => "session_failed"
  | HEARTBEAT => "heartbeat"
  end.

Inductive EventSeverity : Type := INFO | WARNING | ERROR | CRITICAL.

#[global] Instance EventType_eq_dec : EqDecision EventType.
Proof. solve_decision. Defined.

#[global] Instance EventSeverity_eq_dec : EqDecision EventSeverity.
Proof. solve_decision. Defined.

(** [NotificationEvent]; [details] holds the rendered values of the
    free-form payload. *)
Record NotificationEvent : Type := mkEvent {
  event_type : EventType;
  severity : EventSeverity;
  session_id : string;
  phase : string;
  title : string;
  summary : string;
  details : gmap string string;
  requires_response : bool;
  timestamp : string
}.

#[global] Instance NotificationEvent_eq_dec : EqDecision NotificationEvent.
Proof. solve_decision. Defined.

(** ** Calls that return or raise *)

(** An instance of [Exception], by its message. *)
Definition exn : Type := string.

Inductive outcome (A : Type) : Type :=
| Returns (a : A)
| Raises (e : exn).
Arguments Returns {A} a.
Arguments Raises {A} e.

(** ** channel.py *)

(** A channel object as the router sees it: its identity, and the two
    attributes the router reads.  What its coroutines do is the
    environment's part (see [Section Router]). *)
Record NotificationChannel : Type := mkChannel {
  chan_id : nat;
  name : string;
  supports_responses : bool
}.

#[global] Instance NotificationChannel_eq_dec : EqDecision NotificationChannel.
Proof. solve_decision. Defined.

(** ** The event loop's choices *)

(** [take_nth k l] removes the element at index [k mod length l]. *)
Definition take_nth {A} (k : nat) (l : list A) : option (A * list A) :=
  match l with
  | [] => None
  | x :: _ =>
      let i := (k mod length l)%nat in
      Some (nth i l x, take i l ++ drop (S i) l)
  end.

(** [run_order picks l] lists [l] in the order the picks select; when the
    picks run out the remaining elements follow in their own order. *)
Fixpoint run_order_aux {A} (fuel : nat) (picks : list nat) (l : list A) : list A :=
  match fuel with
  | O => []
  | S fuel' =>
      let k := hd O picks in
      match take_nth k l with
      | None => []
      | Some (x, rest) => x :: run_order_aux fuel' (tl picks) rest
      end
  end.

Definition run_order {A} (picks : list nat) (l : list A) : list A :=
  run_order_aux (length l) picks l.

(** [pick_some picks l]: the elements the picks select, in that order,
    and the elements left over. *)
Fixpoint pick_some {A} (picks : list nat) (l : list A) : list A * list A :=
  match picks with
  | [] => ([], l)
  | k :: ps =>
      match take_nth k l with
      | None => ([], l)
      | Some (x, rest) =>
          let '(d, p) := pick_some ps rest in (x :: d, p)
      end
  end.

(** What the loop decides while [asyncio.wait(..., FIRST_COMPLETED)] is
    suspended: the task that finishes first, the tasks that finish as well
    before the waiting coroutine resumes, and the order in which the
    [done] set is iterated afterwards. *)
Record WaitSchedule : Type := mkWaitSchedule {
  first_done : nat;
  also_done : list nat;
  iter_order : list nat
}.

(** ** Observable calls *)

Inductive Call : Type :=
| CSend (ch : NotificationChannel) (ev : NotificationEvent)
| CCreateWaitTask (ch : NotificationChannel) (ev : NotificationEvent)
| CWaitDone (ch : NotificationChannel) (ev : NotificationEvent) (o : outcome bool)
| CCancel (ch : NotificationChannel)
| CConnect (ch : NotificationChannel)
| CDisconnect (ch : NotificationChannel)
| CLogException (msg : string).

(** The state a router coroutine runs in: the channels' world, the calls
    made so far, and the tasks handed to the loop with
    [asyncio.create_task] that nobody awaits. *)
Record LoopState (World : Type) : Type := mkLoopState {
  world : World;
  calls : list Call;
  background : list (NotificationChannel * NotificationEvent)
}.
Arguments mkLoopState {World} _ _ _.
Arguments world {World} _.
Arguments calls {World} _.
Arguments background {World} _.

(** A coroutine: runs in a state, returns or raises. *)
Definition Prog (World A : Type) : Type :=
  LoopState World -> outcome A * LoopState World.

Definition ret {World A} (a : A) : Prog World A := fun s => (Returns a, s).

Definition bind {World A B} (m : Prog World A) (k : A -> Prog World B)
  : Prog World B :=
  fun s =>
    match m s with
    | (Returns a, s') => k a s'
    | (Raises e, s') => (Raises e, s')
    end.

(** [try: m  except Exception: h]. *)
Definition try_except {World A} (m : Prog World A) (h : exn -> Prog World A)
  : Prog World A :=
  fun s =>
    match m s with
    | (Returns a, s') => (Returns a, s')
    | (Raises e, s') => h e s'
    end.

Notation "x <- m ;; k" := (bind m (fun x => k))
  (at level 100, m at next level, right associativity).
Notation "m ;;; k" := (bind m (fun _ => k))
  (at level 100, right associativity).

(** [for x in l: await body(x)]. *)
Fixpoint for_each {World A} (l : list A) (body : A -> Prog World unit)
  : Prog World unit :=
  match l with
  | [] => ret tt
  | x :: l' => body x ;;; for_each l' body
  end.

Definition record_call {World} (c : Call) : Prog World unit :=
  fun s => (Returns tt, mkLoopState (world s) (calls s ++ [c]) (background s)).

(** [logger.exception(msg)]. *)
Definition logger_exception {World} (msg : string) : Prog World unit :=
  record_call (CLogException msg).

(** [asyncio.gather] over the tasks: every task runs to completion, in the order
    the loop picks; the first exception raised, if any, is what the
    awaiting coroutine gets. *)
Fixpoint gather_run {World} (tasks : list (Prog World unit)) (s : LoopState World)
  : list (outcome unit) * LoopState World :=
  match tasks with
  | [] => ([], s)
  | t :: ts =>
      let '(o, s1) := t s in
      let '(os, s2) := gather_run ts s1 in
      (o :: os, s2)
  end.

Fixpoint first_raise (os : list (outcome unit)) : outcome unit :=
  match os with
  | [] => Returns tt
  | Raises e :: _ => Raises e
  | Returns _ :: os' => first_raise os'
  end.

Definition gather {World} (picks : list nat) (tasks : list (Prog World unit))
  : Prog World unit :=
  fun s =>
    let '(os, s') := gather_run (run_order picks tasks) s in
    (first_raise os, s').

(** ** router.py *)

Record NotificationRouter : Type := mkRouter {
  channels : list NotificationChannel;
  filters : gmap string (list string)
}.

(** [NotificationRouter.__init__]. *)
Definition new_router : NotificationRouter := mkRouter [] ∅.

(** [events or ["*"]]: [None] and the empty list are both falsy. *)
Definition events_or_wildcard (events : option (list string)) : list string :=
  match events with
  | Some (e :: es) => e :: es
  | _ => ["*"]
  end.

Definition register (r : NotificationRouter) (channel : NotificationChannel)
    (events : option (list string)) : NotificationRouter :=
  mkRouter (channels r ++ [channel])
           (<[name channel := events_or_wildcard events]> (filters r)).

Definition _matches (r : NotificationRouter) (channel : NotificationChannel)
    (event : NotificationEvent) : bool :=
  let subscribed := default ["*"] (filters r !! name channel) in
  bool_decide ("*" ∈ subscribed)
  || bool_decide (EventType_value (event_type event) ∈ subscribed).

Section Router.
Context {World : Type}.

(** The channels' coroutines, as the environment provides them. *)
Variable chan_send :
  NotificationChannel -> NotificationEvent -> World -> outcome unit * World.
Variable chan_wait_for_response :
  NotificationChannel -> NotificationEvent -> World -> outcome bool * World.
Variable chan_connect : NotificationChannel -> World -> outcome unit * World.
Variable chan_disconnect : NotificationChannel -> World -> outcome unit * World.

Definition call_send (ch : NotificationChannel) (ev : NotificationEvent)
  : Prog World unit :=
  fun s =>
    let '(o, w) := chan_send ch ev (world s) in
    (o, mkLoopState w (calls s ++ [CSend ch ev]) (background s)).

Definition call_connect (ch : NotificationChannel) : Prog World unit :=
  fun s =>
    let '(o, w) := chan_connect ch (world s) in
    (o, mkLoopState w (calls s ++ [CConnect ch]) (background s)).

Definition call_disconnect (ch : NotificationChannel) : Prog World unit :=
  fun s =>
    let '(o, w) := chan_disconnect ch (world s) in
    (o, mkLoopState w (calls s ++ [CDisconnect ch]) (background s)).

Definition _safe_send (channel : NotificationChannel) (event : NotificationEvent)
  : Prog World unit :=
  try_except (call_send channel event)
    (fun _ => logger_exception ("Failed to send to channel " ++ name channel)).

Definition dispatch (r : NotificationRouter) (event : NotificationEvent)
    (picks : list nat) : Prog World unit :=
  let tasks :=
    map (fun ch => _safe_send ch event)
        (filter (fun ch => _matches r ch event = true) (channels r)) in
  match tasks with
  | [] => ret tt
  | _ :: _ => gather picks tasks
  end.

(** [asyncio.create_task(self._safe_send(ch, event))] with the task
    dropped: the loop runs it on its own (see [run_background]). *)
Definition create_task_safe_send (ch : NotificationChannel)
    (ev : NotificationEvent) : Prog World unit :=
  fun s => (Returns tt,
            mkLoopState (world s) (calls s) (background s ++ [(ch, ev)])).

(** A [wait_for_response] task that ran to its end: the outcome is kept
    in the task (a task never raises into the loop). *)
Definition finish_wait (ev : NotificationEvent)
    (acc : list (NotificationChannel * outcome bool) * LoopState World)
    (ch : NotificationChannel)
  : list (NotificationChannel * outcome bool) * LoopState World :=
  let '(done, s) := acc in
  let '(o, w) := chan_wait_for_response ch ev (world s) in
  (done ++ [(ch, o)],
   mkLoopState w (calls s ++ [CWaitDone ch ev o]) (background s)).

(** [await asyncio.wait(response_tasks, return_when=FIRST_COMPLETED)]:
    the finished tasks with their outcomes, in the order in which
    iterating [done] yields them, and the unfinished tasks. *)
Definition asyncio_wait (sched : WaitSchedule) (ev : NotificationEvent)
    (tasks : list NotificationChannel)
  : Prog World (list (NotificationChannel * outcome bool)
                * list NotificationChannel) :=
  fun s =>
    let '(finished, pending) :=
      pick_some (first_done sched :: also_done sched) tasks in
    let '(done, s') := foldl (finish_wait ev) ([], s) finished in
    (Returns (run_order (iter_order sched) done, pending), s').

(** [for task in done: try: return task.result() except Exception: ...]
    followed by [return True]. *)
Fixpoint first_result (done : list (NotificationChannel * outcome bool))
  : Prog World bool :=
  match done with
  | [] => ret true
  | (_, Returns b) :: _ => ret b
  | (_, Raises _) :: done' =>
      logger_exception "Error getting approval response" ;;;
      first_result done'
  end.

Definition request_approval (r : NotificationRouter) (event : NotificationEvent)
    (sched : WaitSchedule) : Prog World bool :=
  let matching := filter (fun ch => _matches r ch event = true) (channels r) in
  let bidirectional := filter (fun ch => supports_responses ch = true) matching in
  let notify_only := filter (fun ch => supports_responses ch = false) matching in
  for_each notify_only (fun ch => create_task_safe_send ch event) ;;;
  match bidirectional with
  | [] => ret true
  | _ :: _ =>
      for_each bidirectional (fun ch => _safe_send ch event) ;;;
      for_each bidirectional (fun ch => record_call (CCreateWaitTask ch event)) ;;;
      waited <- asyncio_wait sched event bidirectional ;;
      let '(done, pending) := waited in
      for_each pending (fun ch => record_call (CCancel ch)) ;;;
      first_result done
  end.

Definition connect_all (r : NotificationRouter) : Prog World unit :=
  for_each (channels r) (fun ch =>
    try_except (call_connect ch)
      (fun _ => logger_exception ("Failed to connect channel " ++ name ch))).

Definition disconnect_all (r : NotificationRouter) : Prog World unit :=
  for_each (channels r) (fun ch =>
    try_except (call_disconnect ch)
      (fun _ => logger_exception ("Failed to disconnect channel " ++ name ch))).

(** The loop running the tasks nobody awaits; an exception leaving one
    of them would reach the loop's handler and is returned here. *)
Fixpoint run_tasks (ts : list (NotificationChannel * NotificationEvent))
    (s : LoopState World) : list (outcome unit) * LoopState World :=
  match ts with
  | [] => ([], s)
  | (ch, ev) :: ts' =>
      let '(o, s1) := _safe_send ch ev s in
      let '(os, s2) := run_tasks ts' s1 in
      (o :: os, s2)
  end.

Definition run_background (s : LoopState World)
  : list (outcome unit) * LoopState World :=
  run_tasks (background s) (mkLoopState (world s) (calls s) []).

(** Successive [dispatch] calls, each with the loop's choice for it. *)
Fixpoint dispatch_all (r : NotificationRouter)
    (evs : list (NotificationEvent * list nat)) : Prog World unit :=
  match evs with
  | [] => ret tt
  | (ev, picks) :: evs' => dispatch r ev picks ;;; dispatch_all r evs'
  end.

End Router.

(** Successive [register] calls on a router. *)
Definition register_all (r : NotificationRouter)
    (regs : list (NotificationChannel * option (list string)))
  : NotificationRouter :=
  foldl (fun r '(ch, evs) => register r ch evs) r regs.

(** The calls made on channels, without the log lines. *)
Definition is_channel_call (c : Call) : bool :=
  match c with
  | CLogException _ => false
  | _ => true
  end.

Definition channel_calls (cs : list Call) : list Call :=
  filter (fun c => is_channel_call c = true) cs.

(** The events a channel was sent, in order. *)
Definition received (ch : NotificationChannel) (cs : list Call)
  : list NotificationEvent :=
  omap (fun c => match c with
                 | CSend ch' ev => if decide (ch' = ch) then Some ev else None
                 | _ => None
                 end) cs.

(** The [wait_for_response] tasks that finished, in the order in which
    they finished, each with its outcome; and the cancelled ones. *)
Definition wait_done (cs : list Call) : list (NotificationChannel * outcome bool) :=
  omap (fun c => match c with
                 | CWaitDone ch _ o => Some (ch, o)
                 | _ => None
                 end) cs.

Definition cancelled (cs : list Call) : list NotificationChannel :=
  omap (fun c => match c with
                 | CCancel ch => Some ch
                 | _ => None
                 end) cs.

(** The matching channels of [request_approval], by capability. *)
Definition matching (r : NotificationRouter) (event : NotificationEvent)
  : list NotificationChannel :=
  filter (fun ch => _matches r ch event = true) (channels r).

Definition bidirectional (r : NotificationRouter) (event : NotificationEvent)
  : list NotificationChannel :=
  filter (fun ch => supports_responses ch = true) (matching r event).

Definition notify_only (r : NotificationRouter) (event : NotificationEvent)
  : list NotificationChannel :=
  filter (fun ch => supports_responses ch = false) (matching r event).

(** [calls_extend s s' visible]: from [s] to [s'] the channel calls made
    are exactly [visible], in that order. *)
Definition calls_extend {World} (s s' : LoopState World) (visible : list Call)
  : Prop :=
  exists extra, calls s' = calls s ++ extra /\ channel_calls extra = visible.

(** The value the loop over [done] returns, from the outcomes in the
    order of iteration. *)
Fixpoint resolve (os : list (outcome bool)) : bool :=
  match os with
  | [] => true
  | Returns b :: _ => b
  | Raises _ :: os' => resolve os'
  end.

(** What [task.result()] of a finished task means for the caller of
    [request_approval] when it is the only finished one. *)
Definition result_or_approve (o : outcome bool) : bool :=
  match o with
  | Returns b => b
  | Raises _ => true
  end.

(** Truthiness of a Python [str]. *)
Definition truthy (s : string) : bool :=
  match s with
  | EmptyString => false
  | String _ _ => true
  end.

(** ** channels/email.py *)

Module Email.

Record EmailChannel : Type := mkEmailChannel {
  smtp_host : string;
  smtp_port : Z;
  username : string;
  password : string;
  from_addr : string;
  to_addrs : list string;
  use_tls : bool;
  min_interval : Z;
  _last_sent : Z;
  _pending : list NotificationEvent
}.

Definition supports_responses (_ : EmailChannel) : bool := false.

(** [EmailChannel.__init__]; [to_addrs or []]. *)
Definition init (smtp_host : string) (smtp_port : Z) (username password : string)
    (from_addr : string) (to_addrs : option (list string)) (use_tls : bool)
    (min_interval : Z) : EmailChannel :=
  mkEmailChannel smtp_host smtp_port username password from_addr
    (default [] to_addrs) use_tls min_interval 0 [].

(** [EmailChannel()] with every default, the interval of 60 seconds
    given in the clock's resolution. *)
Definition init_default (sixty_seconds : Z) : EmailChannel :=
  init "localhost" 587 "" "" "" None true sixty_seconds.

(** The message handed to [_smtp_send]; the two renderings of [body]
    ([_build_html], [_build_plain]) are text made from these events. *)
Record Message : Type := mkMessage {
  msg_subject : string;
  msg_from : string;
  msg_to : string;
  body : list NotificationEvent
}.

Fixpoint join (sep : string) (l : list string) : string :=
  match l with
  | [] => ""
  | [x] => x
  | x :: l' => x ++ sep ++ join sep l'
  end.

Definition subject_of (events : list NotificationEvent) : string :=
  let primary_title :=
    match last events with Some ev => title ev | None => "" end in
  "[ApolloBot] " ++ primary_title
  ++ (if decide (1 < length events)%nat
      then " (+" ++ pretty (length events - 1)%nat ++ " more)"
      else "").

(** [_send_email]: what reaches [_smtp_send]; an exception of the SMTP
    transport is logged there and changes nothing here. *)
Definition _send_email (ch : EmailChannel) (events : list NotificationEvent)
  : list Message :=
  match events, to_addrs ch with
  | [], _ => []
  | _, [] => []
  | _, _ =>
      [mkMessage (subject_of events) (from_addr ch)
                 (join ", " (to_addrs ch)) events]
  end.

Definition set_state (ch : EmailChannel) (last_sent : Z)
    (pending : list NotificationEvent) : EmailChannel :=
  mkEmailChannel (smtp_host ch) (smtp_port ch) (username ch) (password ch)
    (from_addr ch) (to_addrs ch) (use_tls ch) (min_interval ch)
    last_sent pending.

(** The test of [send]'s first branch. *)
Definition immediate (event : NotificationEvent) : bool :=
  bool_decide (event_type event = SESSION_COMPLETED
               \/ event_type event = SESSION_FAILED)
  || bool_decide (severity event = CRITICAL).

(** [send], with [now] the reading of [time.monotonic()]; returns the
    channel afterwards and the messages handed to SMTP. *)
Definition send (now : Z) (event : NotificationEvent) (ch : EmailChannel)
  : EmailChannel * list Message :=
  if immediate event then
    let events_to_send := _pending ch ++ [event] in
    (set_state ch now [], _send_email ch events_to_send)
  else
    let pending := _pending ch ++ [event] in
    if (min_interval ch <=? now - _last_sent ch)%Z then
      (set_state ch now [], _send_email ch pending)
    else
      (set_state ch (_last_sent ch) pending, []).

(** Successive [send] calls, each at its clock reading. *)
Fixpoint send_all (evs : list (Z * NotificationEvent)) (ch : EmailChannel)
  : EmailChannel * list Message :=
  match evs with
  | [] => (ch, [])
  | (now, ev) :: evs' =>
      let '(ch1, out1) := send now ev ch in
      let '(ch2, out2) := send_all evs' ch1 in
      (ch2, out1 ++ out2)
  end.

End Email.

(** ** channels/telegram.py *)

Module Telegram.

Record TelegramChannel : Type := mkTelegramChannel {
  token : string;
  chat_id : string;
  _base_url : string;
  _last_update_id : Z;
  (** the class attribute; [__init__] never assigns it *)
  supports_responses : bool
}.

Definition init (token chat_id : string) : TelegramChannel :=
  mkTelegramChannel token chat_id ("https://api.telegram.org/bot" ++ token) 0 true.

(** One entry of [getUpdates]: [callback_query] with its [id], its
    [data] and whether the user who pressed is a bot. *)
Record CallbackQuery : Type := mkCallbackQuery {
  cb_id : string;
  cb_data : string;
  cb_from_is_bot : bool
}.

Record Update : Type := mkUpdate {
  update_id : Z;
  callback_query : option CallbackQuery
}.

(** What one [client.get(.../getUpdates)] with [resp.json()] gives. *)
Inductive PollResult : Type :=
| PollHTTPError
| PollException (e : exn)
| PollData (ok : bool) (result : list Update).

Definition approve_data (event : NotificationEvent) : string :=
  "approve:" ++ session_id event ++ ":" ++ phase event.

Definition deny_data (event : NotificationEvent) : string :=
  "deny:" ++ session_id event ++ ":" ++ phase event.

(** [callback.get("data", "")] of [update.get("callback_query", {})]. *)
Definition data_of (u : Update) : string :=
  match callback_query u with
  | Some cb => cb_data cb
  | None => ""
  end.

(** The [for update in data.get("result", [])] loop: the decision, if
    one is met, and the cursor [_last_update_id] afterwards.  Before
    returning, the source answers the callback ([_answer_callback],
    which drops the HTTP errors of that request). *)
Fixpoint scan_updates (event : NotificationEvent) (updates : list Update)
    (last : Z) : option bool * Z :=
  match updates with
  | [] => (None, last)
  | u :: us =>
      let last' := (update_id u + 1)%Z in
      if decide (data_of u = approve_data event) then (Some true, last')
      else if decide (data_of u = deny_data event) then (Some false, last')
      else scan_updates event us last'
  end.

(** The [while time() < deadline] loop over what the platform answers:
    each entry is the clock reading at the loop test and the answer to
    the poll made if the test passes.  [None]: the observations ended
    while the loop was still polling. *)
Fixpoint poll_loop (event : NotificationEvent) (deadline : Z) (last : Z)
    (trace : list (Z * PollResult)) : option (outcome bool * Z) :=
  match trace with
  | [] => None
  | (now, r) :: rest =>
      if (now <? deadline)%Z then
        match r with
        | PollHTTPError => poll_loop event deadline last rest
        | PollException e => Some (Raises e, last)
        | PollData false _ => poll_loop event deadline last rest
        | PollData true updates =>
            match scan_updates event updates last with
            | (Some b, last') => Some (Returns b, last')
            | (None, last') => poll_loop event deadline last' rest
            end
        end
      else Some (Returns true, last)
  end.

(** [wait_for_response]; [start] is the clock reading taken to compute
    the deadline. *)
Definition wait_for_response (ch : TelegramChannel) (event : NotificationEvent)
    (timeout : Z) (start : Z) (trace : list (Z * PollResult))
  : option (outcome bool * TelegramChannel) :=
  match poll_loop event (start + timeout)%Z (_last_update_id ch) trace with
  | None => None
  | Some (o, last) =>
      Some (o, mkTelegramChannel (token ch) (chat_id ch) (_base_url ch) last
                 (supports_responses ch))
  end.

(** A callback of the trace that the loop reads: it came with a
    response with [ok], in a turn of the loop that was entered with the
    clock below the deadline (the poll itself is made after that test). *)
Definition pressed (deadline : Z) (trace : list (Z * PollResult))
    (data : string) : Prop :=
  exists now updates u,
    (now, PollData true updates) ∈ trace /\ (now < deadline)%Z
    /\ u ∈ updates /\ data_of u = data.

(** A poll that neither decides nor raises out of the loop. *)
Definition undecided (event : NotificationEvent) (r : PollResult) : bool :=
  match r with
  | PollHTTPError => true
  | PollException _ => false
  | PollData false _ => true
  | PollData true updates =>
      forallb (fun u =>
                 negb (bool_decide (data_of u = approve_data event))
                 && negb (bool_decide (data_of u = deny_data event)))
              updates
  end.

(** [_SEVERITY_EMOJI]. *)
Definition _SEVERITY_EMOJI (sev : EventSeverity) : string :=
  match sev with
  | INFO => "ℹ️"
  | WARNING => "⚠️"
  | ERROR => "❌"
  | CRITICAL => "🚨"
  end.

Definition newline : string := String (Ascii.ascii_of_nat 10) EmptyString.

(** [sep.join(lines)] with the newline as separator. *)
Fixpoint join_lines (lines : list string) : string :=
  match lines with
  | [] => ""
  | [x] => x
  | x :: rest => x ++ newline ++ join_lines rest
  end.

Definition _format_message (event : NotificationEvent) : string :=
  join_lines
    ([(_SEVERITY_EMOJI (severity event) ++ " <b>" ++ title event ++ "</b>")%string;
      "";
      summary event]
     ++ (if truthy (phase event)
         then [(newline ++ "<i>Phase:</i> " ++ phase event)%string]
         else [])
     ++ [("<i>Session:</i> <code>" ++ session_id event ++ "</code>")%string]).

Record Button : Type := mkButton {
  button_text : string;
  callback_data : string
}.

(** The JSON body of [sendMessage]. *)
Record Payload : Type := mkPayload {
  payload_chat_id : string;
  payload_text : string;
  parse_mode : string;
  reply_markup : option (list (list Button))
}.

(** The payload [send] posts. *)
Definition send_payload (ch : TelegramChannel) (event : NotificationEvent)
  : Payload :=
  mkPayload (chat_id ch) (_format_message event) "HTML"
    (if requires_response event
     then Some [[mkButton "✅ Approve"
                   ("approve:" ++ session_id event ++ ":" ++ phase event);
                 mkButton "❌ Deny"
                   ("deny:" ++ session_id event ++ ":" ++ phase event)]]
     else None).

(** A string without the colon that separates the parts of the callback
    data. *)
Fixpoint colon_free (s : string) : bool :=
  match s with
  | EmptyString => true
  | String c s' =>
      negb (Ascii.eqb c (Ascii.ascii_of_nat 58)) && colon_free s'
  end.

End Telegram.

(** ** channels/discord.py *)

Module Discord.

Record DiscordChannel : Type := mkDiscordChannel {
  webhook_url : string;
  bot_token : string;
  channel_id : string;
  supports_responses : bool
}.

(** [__init__]: the class attribute is [True]; it is set to [False]
    when [not (bot_token and channel_id)]. *)
Definition init (webhook_url bot_token channel_id : string) : DiscordChannel :=
  mkDiscordChannel webhook_url bot_token channel_id
    (if negb (truthy bot_token && truthy channel_id) then false else true).

Inductive Emoji : Type := APPROVE_EMOJI | DENY_EMOJI.

#[global] Instance Emoji_eq_dec : EqDecision Emoji.
Proof. solve_decision. Defined.

(** A message of the channel as [GET .../messages] lists it: its [id]
    and, from the embed [_build_embed] made, the session of the footer
    and the phase field. *)
Record Message : Type := mkMessage {
  msg_id : string;
  msg_session : string;
  msg_phase : string
}.

(** [GET .../messages] with [resp.json()] and [messages[0]["id"]]: any
    exception there is caught. *)
Inductive FetchResult : Type :=
| FetchException
| FetchMessages (messages : list Message).

Record User : Type := mkUser { bot : bool }.

(** [GET .../messages/{id}/reactions/{emoji}] with [resp.json()]. *)
Inductive ReactionResult : Type :=
| ReactHTTPError
| ReactException (e : exn)
| ReactResponse (status_code : Z) (users : list User).

(** The platform at one poll: the answer for each message and emoji. *)
Definition Reactions : Type := string -> Emoji -> ReactionResult.

Definition human_reacted (users : list User) : bool :=
  existsb (fun u => negb (bot u)) users.

Inductive Step : Type :=
| Decided (b : bool)
| Raised (e : exn)
| HTTPFailed
| Nothing.

(** The [for emoji in [APPROVE_EMOJI, DENY_EMOJI]] loop inside [try]. *)
Fixpoint check_reactions (react : Reactions) (message_id : string)
    (emojis : list Emoji) : Step :=
  match emojis with
  | [] => Nothing
  | emoji :: rest =>
      match react message_id emoji with
      | ReactHTTPError => HTTPFailed
      | ReactException e => Raised e
      | ReactResponse status users =>
          if decide (status = 200%Z) then
            if human_reacted users
            then Decided (bool_decide (emoji = APPROVE_EMOJI))
            else check_reactions react message_id rest
          else check_reactions react message_id rest
      end
  end.

(** The [while time() < deadline] loop: each entry is the clock reading
    at the loop test and the platform's answers after the sleep. *)
Fixpoint react_loop (deadline : Z) (message_id : string)
    (trace : list (Z * Reactions)) : option (outcome bool) :=
  match trace with
  | [] => None
  | (now, react) :: rest =>
      if (now <? deadline)%Z then
        match check_reactions react message_id [APPROVE_EMOJI; DENY_EMOJI] with
        | Decided b => Some (Returns b)
        | Raised e => Some (Raises e)
        | HTTPFailed | Nothing => react_loop deadline message_id rest
        end
      else Some (Returns true)
  end.

Definition wait_for_response (ch : DiscordChannel) (event : NotificationEvent)
    (timeout : Z) (start : Z) (fetched : FetchResult)
    (trace : list (Z * Reactions)) : option (outcome bool) :=
  if negb (supports_responses ch) then Some (Returns true)
  else
    match fetched with
    | FetchException => Some (Returns true)
    | FetchMessages [] => Some (Returns true)
    | FetchMessages (m :: _) =>
        if negb (truthy (msg_id m)) then Some (Returns true)
        else react_loop (start + timeout)%Z (msg_id m) trace
    end.

(** A reaction the loop reads: a user who is not a bot reacted with
    [emoji] on message [mid], read in a turn of the loop that was entered
    with the clock below the deadline (the reactions themselves are
    fetched after the sleep of that turn). *)
Definition actuated (deadline : Z) (trace : list (Z * Reactions))
    (mid : string) (emoji : Emoji) : Prop :=
  exists now react users,
    (now, react) ∈ trace /\ (now < deadline)%Z
    /\ react mid emoji = ReactResponse 200 users
    /\ human_reacted users = true.

(** The message [send] posted for [event]: its embed carries the
    event's session and phase. *)
Definition message_of (event : NotificationEvent) (m : Message) : Prop :=
  msg_session m = session_id event /\ msg_phase m = phase event.

(** An answer without a human among the users, or an HTTP error. *)
Definition no_human (r : ReactionResult) : bool :=
  match r with
  | ReactHTTPError => true
  | ReactException _ => false
  | ReactResponse status users =>
      negb (bool_decide (status = 200%Z) && human_reacted users)
  end.

(** A poll that neither decides nor raises out of the loop. *)
Definition undecided (message_id : string) (react : Reactions) : bool :=
  no_human (react message_id APPROVE_EMOJI)
  && no_human (react message_id DENY_EMOJI).

(** [_SEVERITY_COLOR]. *)
Definition _SEVERITY_COLOR (sev : EventSeverity) : Z :=
  match sev with
  | INFO => 0x3498DB
  | WARNING => 0xF39C12
  | ERROR => 0xE74C3C
  | CRITICAL => 0x8E44AD
  end%Z.

Record EmbedField : Type := mkEmbedField {
  field_name : string;
  field_value : string;
  inline : bool
}.

(** The dict [_build_embed] returns; [fields] is absent when the event
    has no phase. *)
Record Embed : Type := mkEmbed {
  embed_title : string;
  description : string;
  color : Z;
  footer_text : string;
  embed_timestamp : string;
  fields : option (list EmbedField)
}.

Definition _build_embed (event : NotificationEvent) : Embed :=
  mkEmbed (title event) (summary event) (_SEVERITY_COLOR (severity event))
    ("Session: " ++ session_id event) (timestamp event)
    (if truthy (phase event)
     then Some [mkEmbedField "Phase" (phase event) true]
     else None).

(** Where [send] posts the embed. *)
Inductive Route : Type :=
| ViaBot (e : Embed)
| ViaWebhook (e : Embed).

Definition send (ch : DiscordChannel) (event : NotificationEvent) : Route :=
  if requires_response event && supports_responses ch
  then ViaBot (_build_embed event)
  else ViaWebhook (_build_embed event).

End Discord.

(** ** heartbeat.py *)

Module Heartbeat.

(** A monitor together with the tasks the event loop runs for it.  The
    first seven fields are the attributes of the object; [_task] holds
    the task object (by its number) that the last [start] created.
    [loop_tasks] and [tasks_created] belong to the event loop: the
    tasks running [_loop] for this monitor that are not finished, and
    how many [start] has created.  A task leaves [loop_tasks] only by
    being cancelled: [_loop] is a [while True] that ends on
    [CancelledError] only. *)
Record HeartbeatMonitor : Type := mkMonitor {
  hb_session_id : string;
  interval : Z;
  _task : option nat;
  _current_phase : string;
  _started_at : Z;
  _datasets_acquired : Z;
  _cost_so_far : Z;
  loop_tasks : list nat;
  tasks_created : nat
}.

Definition init (session_id : string) (interval : Z) (started_at : Z)
  : HeartbeatMonitor :=
  mkMonitor session_id interval None "" started_at 0 0 [] 0.

(** [task.done()]. *)
Definition done (m : HeartbeatMonitor) (task : nat) : bool :=
  negb (bool_decide (task ∈ loop_tasks m)).

Definition update_status (phase : string) (datasets cost : Z)
    (m : HeartbeatMonitor) : HeartbeatMonitor :=
  mkMonitor (hb_session_id m) (interval m) (_task m)
    (if truthy phase then phase else _current_phase m)
    (_started_at m) datasets cost (loop_tasks m) (tasks_created m).

(** [start]: nothing when [interval <= 0]; else
    [self._task = asyncio.create_task(self._loop())]: a new task joins
    the loop and replaces whatever [_task] held, which is not cancelled. *)
Definition start (m : HeartbeatMonitor) : outcome unit * HeartbeatMonitor :=
  if (interval m <=? 0)%Z then (Returns tt, m)
  else
    (Returns tt,
     mkMonitor (hb_session_id m) (interval m) (Some (tasks_created m))
       (_current_phase m) (_started_at m) (_datasets_acquired m)
       (_cost_so_far m) (loop_tasks m ++ [tasks_created m])
       (S (tasks_created m))).

(** [stop]: [if self._task and not self._task.done()], then the held
    task is cancelled and awaited (the [CancelledError] the await raises
    is the one [except asyncio.CancelledError] names) and [_task] is set
    to [None].  No other task is touched. *)
Definition stop (m : HeartbeatMonitor) : outcome unit * HeartbeatMonitor :=
  match _task m with
  | Some task =>
      if negb (done m task) then
        (Returns tt,
         mkMonitor (hb_session_id m) (interval m) None
           (_current_phase m) (_started_at m) (_datasets_acquired m)
           (_cost_so_far m) (filter (fun t => t <> task) (loop_tasks m))
           (tasks_created m))
      else (Returns tt, m)
  | None => (Returns tt, m)
  end.

(** [_send_heartbeat] at clock reading [now]: the event it builds and
    passes to [router.dispatch]; the text of the summary is rendered
    outside. *)
Definition _send_heartbeat (render_summary : Z -> string -> Z -> Z -> string)
    (now : Z) (m : HeartbeatMonitor) : NotificationEvent :=
  let elapsed := (now - _started_at m)%Z in
  mkEvent HEARTBEAT INFO (hb_session_id m) (_current_phase m) "Heartbeat"
    (render_summary elapsed (_current_phase m) (_cost_so_far m)
       (_datasets_acquired m))
    (<["elapsed_seconds" := pretty elapsed]>
      (<["current_phase" := _current_phase m]>
        (<["cost_usd" := pretty (_cost_so_far m)]>
          (<["datasets_acquired" := pretty (_datasets_acquired m)]> ∅))))
    false (pretty now).

(** What can happen to a monitor: its methods are called, or the loop
    resumes one of the tasks after its sleep (one turn of [_loop]) at
    some clock reading. *)
Inductive Action : Type :=
| Start
| Stop
| UpdateStatus (phase : string) (datasets cost : Z)
| TaskWakes (task : nat) (now : Z).

(** One action; the second component is the events passed to
    [router.dispatch] by it.  Any task that is not finished can wake,
    whether the monitor still holds it or not. *)
Definition step (render_summary : Z -> string -> Z -> Z -> string)
    (m : HeartbeatMonitor) (a : Action)
  : HeartbeatMonitor * list NotificationEvent :=
  match a with
  | Start => (snd (start m), [])
  | Stop => (snd (stop m), [])
  | UpdateStatus p d c => (update_status p d c m, [])
  | TaskWakes task now =>
      if done m task then (m, [])
      else (m, [_send_heartbeat render_summary now m])
  end.

Fixpoint run (render_summary : Z -> string -> Z -> Z -> string)
    (m : HeartbeatMonitor) (acts : list Action)
  : HeartbeatMonitor * list NotificationEvent :=
  match acts with
  | [] => (m, [])
  | a :: acts' =>
      let '(m1, d1) := step render_summary m a in
      let '(m2, d2) := run render_summary m1 acts' in
      (m2, d1 ++ d2)
  end.

End Heartbeat.

(** ** Concrete channels and events used in the examples *)

Module Sample.

Definition event (t : EventType) : NotificationEvent :=
  mkEvent t INFO "test-session" "plan" "Test event" "Something happened" ∅
          false "2026-01-01T00:00:00+00:00".

Definition approval : NotificationEvent :=
  mkEvent CHECKPOINT_APPROVAL WARNING "test-session" "plan"
          "Approval needed: plan" "Something happened" ∅ true
          "2026-01-01T00:00:00+00:00".

Definition hook_a : NotificationChannel := mkChannel 0 "webhook" false.
Definition hook_b : NotificationChannel := mkChannel 1 "webhook" false.
Definition console : NotificationChannel := mkChannel 2 "console" false.
Definition chat_a : NotificationChannel := mkChannel 3 "telegram" true.
Definition chat_b : NotificationChannel := mkChannel 4 "discord" true.

(** A world without state: every [send] succeeds. *)
Definition send_ok (_ : NotificationChannel) (_ : NotificationEvent) (w : unit)
  : outcome unit * unit := (Returns tt, w).

(** Every [send] raises. *)
Definition send_boom (_ : NotificationChannel) (_ : NotificationEvent) (w : unit)
  : outcome unit * unit := (Raises "boom", w).

(** [chat_a] fails while waiting, every other channel answers deny. *)
Definition wait_fail_or_deny (ch : NotificationChannel) (_ : NotificationEvent)
    (w : unit) : outcome bool * unit :=
  if decide (chan_id ch = 3%nat) then (Raises "poll failed", w)
  else (Returns false, w).

Definition wait_deny (_ : NotificationChannel) (_ : NotificationEvent) (w : unit)
  : outcome bool * unit := (Returns false, w).




Definition lifecycle_ok (_ : NotificationChannel) (w : unit)
  : outcome unit * unit := (Returns tt, w).

Definition idle : LoopState unit := mkLoopState tt [] [].

(** An e-mail channel with one recipient and a long interval. *)
Definition mailbox : Email.EmailChannel :=
  Email.init "localhost" 587 "" "" "test@example.com"
    (Some ["user@example.com"]) true 9999.

(** Both tasks are finished when [asyncio.wait] returns. *)
Definition both_done : WaitSchedule := mkWaitSchedule 0 [0%nat] [].

Definition first_only : WaitSchedule := mkWaitSchedule 0 [] [].

(** A Discord channel with both credentials, two messages in its chat
    (the latest one posted for another session), and a platform on which
    a person reacted with the cross on that latest message only. *)
Definition discord : Discord.DiscordChannel :=
  Discord.init "https://discord.com/api/webhooks/X/Y" "bot-token" "42".

Definition latest_message : Discord.Message :=
  Discord.mkMessage "m2" "other-session" "review".

Definition approval_message : Discord.Message :=
  Discord.mkMessage "m1" "test-session" "plan".

Definition person : Discord.User := Discord.mkUser false.
Definition the_bot : Discord.User := Discord.mkUser true.

Definition cross_on_latest : Discord.Reactions :=
  fun mid emoji =>
    if decide (mid = "m2" /\ emoji = Discord.DENY_EMOJI)
    then Discord.ReactResponse 200 [the_bot; person]
    else Discord.ReactResponse 200 [the_bot].

Definition only_bot : Discord.Reactions :=
  fun _ _ => Discord.ReactResponse 200 [the_bot].

(** A Telegram chat in which somebody pressed a button of another
    session. *)
Definition telegram : Telegram.TelegramChannel :=
  Telegram.init "123:ABC" "456".

Definition other_press : Telegram.Update :=
  Telegram.mkUpdate 7 (Some (Telegram.mkCallbackQuery "cb1"
                               "deny:other-session:plan" false)).

Definition deny_press : Telegram.Update :=
  Telegram.mkUpdate 8 (Some (Telegram.mkCallbackQuery "cb2"
                               "deny:test-session:plan" false)).

End Sample.

(** ** channels/webhook.py *)

Module Webhook.

Record WebhookChannel : Type := mkWebhookChannel {
  url : string;
  secret : string;
  headers : gmap string string;
  timeout : Z
}.

(** [__init__]; [headers or {}]. *)
Definition init (url secret : string) (headers : option (gmap string string))
    (timeout : Z) : WebhookChannel :=
  mkWebhookChannel url secret (default ∅ headers) timeout.

Section Send.
(** [hmac.new(key, msg, hashlib.sha256).hexdigest()], from the standard
    library. *)
Variable hmac_sha256_hex : string -> string -> string.

(** The headers [send] posts with a body: the literal
    [{"Content-Type": ..., **self.headers}], then the signature when a
    secret is set. *)
Definition send_headers (ch : WebhookChannel) (body : string)
  : gmap string string :=
  let base := headers ch ∪ {["Content-Type" := "application/json"]} in
  if truthy (secret ch)
  then <["X-Apollo-Signature" :=
           ("sha256=" ++ hmac_sha256_hex (secret ch) body)%string]> base
  else base.

End Send.

End Webhook.

(** ** checkpoint.py *)

Module Checkpoint.

Record ChannelCheckpointHandler : Type := mkHandler {
  router : NotificationRouter;
  handler_session_id : string
}.

(** [__init__], [session_id: str = ""]. *)
Definition init (router : NotificationRouter) (session_id : option string)
  : ChannelCheckpointHandler :=
  mkHandler router (default "" session_id).

(** The event [request_approval] builds; [now] is the timestamp the
    default factory gives. *)
Definition approval_event (h : ChannelCheckpointHandler)
    (phase summary now : string) : NotificationEvent :=
  mkEvent CHECKPOINT_APPROVAL WARNING (handler_session_id h) phase
    ("Approval needed: " ++ phase) summary ∅ true now.

(** The event [notify] builds. *)
Definition notify_event (h : ChannelCheckpointHandler)
    (phase summary now : string) : NotificationEvent :=
  mkEvent PHASE_COMPLETED INFO (handler_session_id h) phase
    ("Phase complete: " ++ phase) summary ∅ false now.

Section Handler.
Context {World : Type}.
Variable chan_send :
  NotificationChannel -> NotificationEvent -> World -> outcome unit * World.
Variable chan_wait_for_response :
  NotificationChannel -> NotificationEvent -> World -> outcome bool * World.

Definition request_approval (h : ChannelCheckpointHandler)
    (phase summary now : string) (sched : WaitSchedule) : Prog World bool :=
  request_approval chan_send chan_wait_for_response (router h)
    (approval_event h phase summary now) sched.

Definition notify (h : ChannelCheckpointHandler)
    (phase summary now : string) (picks : list nat) : Prog World unit :=
  dispatch chan_send (router h) (notify_event h phase summary now) picks.

End Handler.

End Checkpoint.

(** ** agents/orchestrator.py: [_build_router] *)

Module Orchestrator.

(** [ChannelConfig] of [config.py]: the extra fields are kept by name. *)
Record ChannelConfig : Type := mkChannelConfig {
  ch_type : string;
  ch_enabled : bool;
  ch_events : list string;
  ch_extras : gmap string string
}.

Record NotificationsConfig : Type := mkNotificationsConfig {
  notif_enabled : bool;
  heartbeat_interval : Z;
  notif_channels : list ChannelConfig
}.

(** [extras.get(key, "")]. *)
Definition extra (cfg : ChannelConfig) (key : string) : string :=
  default "" (ch_extras cfg !! key).

(** The channel object built for one config entry, as the router sees
    it: the class's [name], and [supports_responses] after [__init__].
    [None] for a type that is not recognised. *)
Definition build_channel (id : nat) (cfg : ChannelConfig)
  : option NotificationChannel :=
  if decide (ch_type cfg = "console") then Some (mkChannel id "console" false)
  else if decide (ch_type cfg = "webhook") then Some (mkChannel id "webhook" false)
  else if decide (ch_type cfg = "telegram") then
    Some (mkChannel id "telegram"
            (Telegram.supports_responses
               (Telegram.init (extra cfg "token") (extra cfg "chat_id"))))
  else if decide (ch_type cfg = "discord") then
    Some (mkChannel id "discord"
            (Discord.supports_responses
               (Discord.init (extra cfg "webhook_url") (extra cfg "bot_token")
                  (extra cfg "channel_id"))))
  else if decide (ch_type cfg = "slack") then Some (mkChannel id "slack" false)
  else if decide (ch_type cfg = "google_chat")
  then Some (mkChannel id "google_chat" false)
  else if decide (ch_type cfg = "email") then Some (mkChannel id "email" false)
  else None.

(** The body of [for ch_cfg in notif_config.channels]; [id] numbers the
    objects created. *)
Fixpoint build_loop (id : nat) (cfgs : list ChannelConfig)
    (r : NotificationRouter) : NotificationRouter :=
  match cfgs with
  | [] => r
  | cfg :: rest =>
      if negb (ch_enabled cfg) then build_loop (S id) rest r
      else
        match build_channel id cfg with
        | Some channel =>
            build_loop (S id) rest (register r channel (Some (ch_events cfg)))
        | None => build_loop (S id) rest r
        end
  end.

Definition _build_router (notif_config : NotificationsConfig)
  : NotificationRouter :=
  if negb (notif_enabled notif_config) then new_router
  else build_loop 0 (notif_channels notif_config) new_router.

(** The entries that give a channel. *)
Definition builds (cfg : ChannelConfig) : bool :=
  ch_enabled cfg
  && bool_decide (ch_type cfg ∈ ["console"; "webhook"; "telegram"; "discord";
                                 "slack"; "google_chat"; "email"]).

End Orchestrator.

(** * Properties *)

(** ** The loop's choices are permutations *)

Lemma take_nth_perm {A} (k : nat) (l : list A) x rest :
  take_nth k l = Some (x, rest) -> x :: rest ≡ₚ l.
Proof.
  destruct l as [|y l]; [discriminate|].
  intros H.
  pose (i := (k mod length (y :: l))%nat).
  assert (Hi : (i < length (y :: l))%nat)
    by (apply Nat.mod_upper_bound; simpl; lia).
  change (Some (nth i (y :: l) y, take i (y :: l) ++ drop (S i) (y :: l))
          = Some (x, rest)) in H.
  clearbody i.
  destruct (lookup_lt_is_Some_2 (y :: l) i Hi) as [z Hz].
  rewrite (nth_lookup_Some _ _ y z Hz) in H.
  injection H as <- <-.
  transitivity (take i (y :: l) ++ z :: drop (S i) (y :: l)).
  - apply Permutation_middle.
  - rewrite (take_drop_middle (y :: l) i z Hz). reflexivity.
Qed.

Lemma take_nth_map {A B} (f : A -> B) k (l : list A) :
  take_nth k (map f l)
  = match take_nth k l with
    | Some (x, rest) => Some (f x, map f rest)
    | None => None
    end.
Proof.
  destruct l as [|y l]; [reflexivity|].
  pose (i := (k mod length (y :: l))%nat).
  change (take_nth k (y :: l))
    with (Some (nth i (y :: l) y, take i (y :: l) ++ drop (S i) (y :: l))).
  assert (E : take_nth k (map f (y :: l))
              = Some (nth i (map f (y :: l)) (f y),
                      take i (map f (y :: l)) ++ drop (S i) (map f (y :: l)))).
  { unfold take_nth. cbn [map]. subst i. cbn [length]. rewrite length_map.
    reflexivity. }
  rewrite E. clearbody i.
  rewrite map_nth, map_app, <- !fmap_take, <- !fmap_drop. reflexivity.
Qed.

Lemma take_nth_length {A} k (l : list A) x rest :
  take_nth k l = Some (x, rest) -> length l = S (length rest).
Proof.
  intros H. apply take_nth_perm in H. apply Permutation_length in H.
  simpl in H. lia.
Qed.

Lemma run_order_aux_perm {A} fuel : forall picks (l : list A),
  length l = fuel -> run_order_aux fuel picks l ≡ₚ l.
Proof.
  induction fuel as [|fuel IH]; intros picks l Hl.
  - destruct l; [reflexivity|discriminate].
  - destruct l as [|y l]; [discriminate|].
    cbn [run_order_aux].
    destruct (take_nth (hd 0%nat picks) (y :: l)) as [[x rest]|] eqn:E;
      [|discriminate].
    pose proof (take_nth_length _ _ _ _ E) as Hlen.
    rewrite IH by lia. eapply take_nth_perm; eauto.
Qed.

Lemma run_order_perm {A} picks (l : list A) : run_order picks l ≡ₚ l.
Proof. apply run_order_aux_perm. reflexivity. Qed.

Lemma run_order_aux_map {A B} (f : A -> B) fuel : forall picks (l : list A),
  run_order_aux fuel picks (map f l) = map f (run_order_aux fuel picks l).
Proof.
  induction fuel as [|fuel IH]; intros picks l; [reflexivity|].
  cbn [run_order_aux]. rewrite take_nth_map.
  destruct (take_nth (hd 0%nat picks) l) as [[x rest]|]; [|reflexivity].
  cbn [map]. rewrite IH. reflexivity.
Qed.

Lemma run_order_map {A B} (f : A -> B) picks (l : list A) :
  run_order picks (map f l) = map f (run_order picks l).
Proof. unfold run_order. rewrite length_map. apply run_order_aux_map. Qed.

Lemma pick_some_perm {A} picks : forall (l d p : list A),
  pick_some picks l = (d, p) -> d ++ p ≡ₚ l.
Proof.
  induction picks as [|k ps IH]; intros l d p H; cbn [pick_some] in H.
  - injection H as <- <-. reflexivity.
  - destruct (take_nth k l) as [[x rest]|] eqn:E.
    + destruct (pick_some ps rest) as [d' p'] eqn:E'.
      injection H as <- <-. cbn. rewrite (IH _ _ _ E').
      eapply take_nth_perm; eauto.
    + injection H as <- <-. reflexivity.
Qed.

Lemma pick_some_nonempty {A} k ps (l d p : list A) :
  l <> [] -> pick_some (k :: ps) l = (d, p) -> d <> [].
Proof.
  intros Hl H. cbn [pick_some] in H.
  destruct l as [|y l]; [congruence|].
  destruct (take_nth k (y :: l)) as [[x rest]|] eqn:E; [|discriminate].
  destruct (pick_some ps rest). injection H as <- <-. discriminate.
Qed.

(** ** Projections of the call log *)

Lemma channel_calls_app (a b : list Call) :
  channel_calls (a ++ b) = channel_calls a ++ channel_calls b.
Proof. apply filter_app. Qed.

Lemma channel_calls_map {A} (f : A -> Call) (l : list A) :
  (forall x, is_channel_call (f x) = true) -> channel_calls (map f l) = map f l.
Proof.
  intros H. unfold channel_calls. induction l as [|x l IH]; [reflexivity|].
  cbn [map]. rewrite filter_cons_True by apply H. f_equal. exact IH.
Qed.

Lemma omap_map_none {A B C} (f : B -> option C) (g : A -> B) (l : list A) :
  (forall x, f (g x) = None) -> omap f (map g l) = [].
Proof.
  intros H. induction l as [|x l IH]; [reflexivity|].
  cbn. rewrite H. exact IH.
Qed.

Lemma omap_map_some {A B C} (f : B -> option C) (g : A -> B) (h : A -> C)
    (l : list A) :
  (forall x, f (g x) = Some (h x)) -> omap f (map g l) = map h l.
Proof.
  intros H. induction l as [|x l IH]; [reflexivity|].
  cbn. rewrite H. cbn. f_equal. exact IH.
Qed.

Lemma omap_channel_calls {C} (f : Call -> option C) (cs : list Call) :
  (forall msg, f (CLogException msg) = None) ->
  omap f (channel_calls cs) = omap f cs.
Proof.
  intros H. induction cs as [|c cs IH]; [reflexivity|].
  unfold channel_calls in *.
  destruct (decide (is_channel_call c = true)) as [Hc|Hc].
  - rewrite filter_cons_True by exact Hc. cbn. rewrite IH. reflexivity.
  - rewrite filter_cons_False by exact Hc.
    destruct c; cbn in Hc; try congruence. cbn. rewrite H. exact IH.
Qed.

Lemma received_channel_calls ch cs :
  received ch (channel_calls cs) = received ch cs.
Proof. apply omap_channel_calls. reflexivity. Qed.

Lemma wait_done_channel_calls cs : wait_done (channel_calls cs) = wait_done cs.
Proof. apply omap_channel_calls. reflexivity. Qed.

Lemma cancelled_channel_calls cs : cancelled (channel_calls cs) = cancelled cs.
Proof. apply omap_channel_calls. reflexivity. Qed.

Lemma received_app ch a b : received ch (a ++ b) = received ch a ++ received ch b.
Proof. apply omap_app. Qed.

Lemma elem_of_received_sends ch ev ev' (l : list NotificationChannel) :
  ev' ∈ received ch (map (fun c => CSend c ev) l) <-> ev' = ev /\ ch ∈ l.
Proof.
  induction l as [|c l IH]; cbn.
  - split; [intros H; inversion H | intros [_ H]; inversion H].
  - destruct (decide (c = ch)) as [->|Hne]; cbn.
    + rewrite elem_of_cons, IH, elem_of_cons. tauto.
    + rewrite IH, elem_of_cons. split; [tauto|].
      intros [-> [->|H]]; [congruence|tauto].
Qed.

Lemma received_perm ch (a b : list Call) :
  a ≡ₚ b -> received ch a ≡ₚ received ch b.
Proof. intros H. unfold received. rewrite H. reflexivity. Qed.

(** ** The value of the loop over the finished tasks *)

Lemma resolve_cases (os : list (outcome bool)) :
  Returns (resolve os) ∈ os
  \/ (resolve os = true /\ Forall (fun o => exists e, o = Raises e) os).
Proof.
  induction os as [|[b|e] os IH]; cbn.
  - right. split; [reflexivity | constructor].
  - left. left.
  - destruct IH as [IH|[IH1 IH2]].
    + left. right. exact IH.
    + right. split; [exact IH1|]. constructor; eauto.
Qed.

Lemma resolve_single (o : outcome bool) : resolve [o] = result_or_approve o.
Proof. destruct o; reflexivity. Qed.

Lemma run_order_single {A} picks (x : A) : run_order picks [x] = [x].
Proof.
  pose proof (run_order_perm picks [x]) as H.
  apply Permutation_singleton_r in H. exact H.
Qed.

(** ** Registrations *)

Lemma register_all_snoc r regs ch evs :
  register_all r (regs ++ [(ch, evs)]) = register (register_all r regs) ch evs.
Proof. unfold register_all. rewrite foldl_app. reflexivity. Qed.

Lemma register_all_channels regs : forall r,
  channels (register_all r regs) = channels r ++ map fst regs.
Proof.
  induction regs as [|[ch evs] regs IH]; intros r; cbn.
  - rewrite app_nil_r. reflexivity.
  - unfold register_all in IH. rewrite IH. cbn. rewrite <- app_assoc.
    reflexivity.
Qed.

Lemma register_all_filters_other (n : string) regs : forall r,
  Forall (fun p => name (fst p) <> n) regs ->
  filters (register_all r regs) !! n = filters r !! n.
Proof.
  induction regs as [|[ch evs] regs IH]; intros r H; cbn; [reflexivity|].
  inversion H as [|? ? Hn Hrest]; subst. cbn in Hn.
  unfold register_all in IH. rewrite IH by assumption.
  cbn. apply lookup_insert_ne. exact Hn.
Qed.

Lemma register_all_last_filter r pre ch evs post :
  Forall (fun p => name (fst p) <> name ch) post ->
  filters (register_all r (pre ++ (ch, evs) :: post)) !! name ch
  = Some (events_or_wildcard evs).
Proof.
  intros H. unfold register_all. rewrite foldl_app. cbn [foldl].
  fold (register_all r pre).
  fold (register_all (register (register_all r pre) ch evs) post).
  rewrite register_all_filters_other by assumption.
  cbn. apply lookup_insert_eq.
Qed.

Lemma event_type_value_phase_completed (t : EventType) :
  EventType_value t = "phase_completed" -> t = PHASE_COMPLETED.
Proof. destruct t; cbn; intros H; try reflexivity; discriminate. Qed.

(** ** The router's coroutines *)

Section RouterFacts.
#[local] Set Default Proof Using "Type".
Context {World : Type}.
Variable chan_send :
  NotificationChannel -> NotificationEvent -> World -> outcome unit * World.
Variable chan_wait_for_response :
  NotificationChannel -> NotificationEvent -> World -> outcome bool * World.
Variable chan_connect : NotificationChannel -> World -> outcome unit * World.
Variable chan_disconnect : NotificationChannel -> World -> outcome unit * World.

Lemma calls_extend_refl (s : LoopState World) : calls_extend s s [].
Proof. exists []. rewrite app_nil_r. split; reflexivity. Qed.

Lemma calls_extend_trans (s s1 s2 : LoopState World) v1 v2 :
  calls_extend s s1 v1 -> calls_extend s1 s2 v2 -> calls_extend s s2 (v1 ++ v2).
Proof.
  intros [e1 [H1 <-]] [e2 [H2 <-]]. exists (e1 ++ e2). split.
  - rewrite H2, H1, app_assoc. reflexivity.
  - apply channel_calls_app.
Qed.

Lemma safe_send_spec ch ev (s : LoopState World) :
  exists s', _safe_send chan_send ch ev s = (Returns tt, s')
             /\ background s' = background s
             /\ calls_extend s s' [CSend ch ev].
Proof.
  unfold _safe_send, try_except, call_send.
  destruct (chan_send ch ev (world s)) as [[[]|e] w].
  - eexists. split; [reflexivity|]. split; [reflexivity|].
    exists [CSend ch ev]. split; reflexivity.
  - eexists. split; [reflexivity|]. split; [reflexivity|].
    exists [CSend ch ev; CLogException ("Failed to send to channel " ++ name ch)].
    cbn. split; [|reflexivity]. rewrite <- app_assoc. reflexivity.
Qed.

Lemma for_each_safe_send ev (l : list NotificationChannel) :
  forall s : LoopState World,
  exists s', for_each l (fun ch => _safe_send chan_send ch ev) s = (Returns tt, s')
             /\ background s' = background s
             /\ calls_extend s s' (map (fun ch => CSend ch ev) l).
Proof.
  induction l as [|ch l IH]; intros s; cbn [for_each map].
  - exists s. split; [reflexivity|]. split; [reflexivity|].
    apply calls_extend_refl.
  - destruct (safe_send_spec ch ev s) as (s1 & E1 & B1 & C1).
    destruct (IH s1) as (s2 & E2 & B2 & C2).
    exists s2. unfold bind. rewrite E1, E2.
    split; [reflexivity|]. split; [congruence|].
    apply (calls_extend_trans s s1 s2 [CSend ch ev] _ C1 C2).
Qed.

Lemma gather_run_safe_send ev (l : list NotificationChannel) :
  forall s : LoopState World,
  exists s', gather_run (map (fun ch => _safe_send chan_send ch ev) l) s
             = (map (fun _ => Returns tt) l, s')
             /\ background s' = background s
             /\ calls_extend s s' (map (fun ch => CSend ch ev) l).
Proof.
  induction l as [|ch l IH]; intros s; cbn [gather_run map].
  - exists s. split; [reflexivity|]. split; [reflexivity|].
    apply calls_extend_refl.
  - destruct (safe_send_spec ch ev s) as (s1 & E1 & B1 & C1).
    destruct (IH s1) as (s2 & E2 & B2 & C2).
    exists s2. rewrite E1, E2.
    split; [reflexivity|]. split; [congruence|].
    apply (calls_extend_trans s s1 s2 [CSend ch ev] _ C1 C2).
Qed.

Lemma first_raise_all_return {A} (l : list A) :
  first_raise (map (fun _ => Returns tt) l) = Returns tt.
Proof. induction l; cbn; auto. Qed.

(** [dispatch] returns, and sends the event once to each matching
    registration, in the order the loop ran the tasks. *)
Lemma dispatch_spec r ev picks (s : LoopState World) :
  exists s' order,
    dispatch chan_send r ev picks s = (Returns tt, s')
    /\ background s' = background s
    /\ order ≡ₚ matching r ev
    /\ calls_extend s s' (map (fun ch => CSend ch ev) order).
Proof.
  unfold dispatch. fold (matching r ev).
  destruct (matching r ev) as [|c l] eqn:E.
  - exists s, []. cbn. split; [reflexivity|]. split; [reflexivity|].
    split; [reflexivity|]. apply calls_extend_refl.
  - change (map (fun ch => _safe_send chan_send ch ev) (c :: l))
      with (_safe_send chan_send c ev
            :: map (fun ch => _safe_send chan_send ch ev) l).
    cbv iota. unfold gather.
    change (_safe_send chan_send c ev
            :: map (fun ch => _safe_send chan_send ch ev) l)
      with (map (fun ch => _safe_send chan_send ch ev) (c :: l)).
    rewrite run_order_map.
    destruct (gather_run_safe_send ev (run_order picks (c :: l)) s)
      as (s' & E' & B' & C').
    exists s', (run_order picks (c :: l)).
    rewrite E', first_raise_all_return.
    split; [reflexivity|]. split; [exact B'|].
    split; [apply run_order_perm | exact C'].
Qed.

Lemma dispatch_all_spec r evs : forall s : LoopState World,
  exists s' extra,
    dispatch_all chan_send r evs s = (Returns tt, s')
    /\ background s' = background s
    /\ calls s' = calls s ++ extra
    /\ forall ch ev, ev ∈ received ch extra
                     <-> ev ∈ map fst evs /\ ch ∈ matching r ev.
Proof.
  clear chan_wait_for_response chan_connect chan_disconnect.
  induction evs as [|[ev picks] evs IH]; intros s; cbn [dispatch_all map fst].
  - exists s, []. split; [reflexivity|]. split; [reflexivity|].
    split; [rewrite app_nil_r; reflexivity|].
    intros ch ev. cbn. split; [intros H; inversion H|intros [H _]; inversion H].
  - destruct (dispatch_spec r ev picks s) as (s1 & order & E1 & B1 & P1 & C1).
    destruct C1 as (e1 & Hc1 & Hv1).
    destruct (IH s1) as (s2 & e2 & E2 & B2 & Hc2 & R2).
    exists s2, (e1 ++ e2). unfold bind. rewrite E1, E2.
    split; [reflexivity|]. split; [congruence|].
    split; [rewrite Hc2, Hc1, app_assoc; reflexivity|].
    intros ch ev'. rewrite received_app, elem_of_app, R2.
    rewrite <- (received_channel_calls ch e1), Hv1, elem_of_received_sends.
    rewrite elem_of_cons, P1. split.
    + intros [[-> H]|[H1 H2]]; tauto.
    + intros [[->|H1] H2]; tauto.
Qed.

Lemma for_each_create_task ev (l : list NotificationChannel) :
  forall s : LoopState World,
  for_each l (fun ch => create_task_safe_send ch ev) s
  = (Returns tt,
     mkLoopState (world s) (calls s)
       (background s ++ map (fun ch => (ch, ev)) l)).
Proof.
  induction l as [|ch l IH]; intros s; cbn [for_each map].
  - rewrite app_nil_r. destruct s; reflexivity.
  - unfold bind. cbn. rewrite IH. cbn. rewrite <- app_assoc. reflexivity.
Qed.

Lemma for_each_record_call {A} (f : A -> Call) (l : list A) :
  forall s : LoopState World,
  for_each l (fun x => record_call (f x)) s
  = (Returns tt, mkLoopState (world s) (calls s ++ map f l) (background s)).
Proof.
  induction l as [|x l IH]; intros s; cbn [for_each map].
  - rewrite app_nil_r. destruct s; reflexivity.
  - unfold bind. cbn. rewrite IH. cbn. rewrite <- app_assoc. reflexivity.
Qed.

Lemma finish_wait_spec ev (finished : list NotificationChannel) :
  forall acc (s : LoopState World),
  exists done s',
    foldl (finish_wait chan_wait_for_response ev) (acc, s) finished
    = (acc ++ done, s')
    /\ map fst done = finished
    /\ Forall (fun p => exists w,
                 fst (chan_wait_for_response (fst p) ev w) = snd p) done
    /\ background s' = background s
    /\ calls s' = calls s ++ map (fun p => CWaitDone (fst p) ev (snd p)) done.
Proof.
  induction finished as [|ch l IH]; intros acc s; cbn [foldl].
  - exists [], s. rewrite !app_nil_r. repeat split; try reflexivity.
    constructor.
  - unfold finish_wait at 2.
    destruct (chan_wait_for_response ch ev (world s)) as [o w] eqn:E.
    destruct (IH (acc ++ [(ch, o)])
                 (mkLoopState w (calls s ++ [CWaitDone ch ev o]) (background s)))
      as (done & s' & E' & M' & F' & B' & C').
    exists ((ch, o) :: done), s'. rewrite E'. cbn in *.
    rewrite <- app_assoc. split; [reflexivity|].
    split; [congruence|].
    split; [constructor; [exists (world s); cbn; rewrite E; reflexivity | exact F']|].
    split; [exact B'|].
    rewrite C', <- app_assoc. reflexivity.
Qed.

Lemma first_result_spec (done : list (NotificationChannel * outcome bool)) :
  forall s : LoopState World,
  exists s', first_result done s = (Returns (resolve (map snd done)), s')
             /\ background s' = background s
             /\ calls_extend s s' [].
Proof.
  induction done as [|[ch [b|e]] done IH]; intros s; cbn [first_result map snd resolve].
  - exists s. split; [reflexivity|]. split; [reflexivity|].
    apply calls_extend_refl.
  - exists s. split; [reflexivity|]. split; [reflexivity|].
    apply calls_extend_refl.
  - unfold bind, logger_exception, record_call.
    match goal with |- context [first_result done ?s1] =>
      destruct (IH s1) as (s' & E' & B' & C') end.
    exists s'. rewrite E'. split; [reflexivity|]. split; [exact B'|].
    destruct C' as (extra & Hc & Hv). cbn in Hc.
    exists (CLogException "Error getting approval response" :: extra).
    split; [rewrite Hc, <- app_assoc; reflexivity|].
    unfold channel_calls in *. rewrite filter_cons_False by (cbn; congruence).
    exact Hv.
Qed.

(** [request_approval] always returns.  Without a matching bidirectional
    channel it returns [True] at once; otherwise it sends to each of them,
    creates their tasks, and the value is the one of the loop over the
    finished tasks, with every unfinished task cancelled. *)
Lemma request_approval_spec r ev sched (s : LoopState World) :
  exists b s',
    request_approval chan_send chan_wait_for_response r ev sched s
    = (Returns b, s')
    /\ background s'
       = background s ++ map (fun ch => (ch, ev)) (notify_only r ev)
    /\ ((bidirectional r ev = [] /\ b = true /\ calls s' = calls s)
        \/ exists finished pending done,
             bidirectional r ev <> []
             /\ pick_some (first_done sched :: also_done sched)
                          (bidirectional r ev) = (finished, pending)
             /\ map fst done = finished
             /\ Forall (fun p => exists w,
                          fst (chan_wait_for_response (fst p) ev w) = snd p) done
             /\ b = resolve (map snd (run_order (iter_order sched) done))
             /\ calls_extend s s'
                  (map (fun ch => CSend ch ev) (bidirectional r ev)
                   ++ map (fun ch => CCreateWaitTask ch ev) (bidirectional r ev)
                   ++ map (fun p => CWaitDone (fst p) ev (snd p)) done
                   ++ map CCancel pending)).
Proof.
  unfold request_approval.
  fold (matching r ev). fold (bidirectional r ev). fold (notify_only r ev).
  unfold bind at 1. rewrite for_each_create_task.
  set (s0 := mkLoopState (world s) (calls s)
               (background s ++ map (fun ch => (ch, ev)) (notify_only r ev))).
  destruct (bidirectional r ev) as [|c l] eqn:E.
  - exists true, s0. split; [reflexivity|]. split; [reflexivity|].
    left. repeat split; reflexivity.
  - set (bi := c :: l) in *.
    unfold bind at 1.
    destruct (for_each_safe_send ev bi s0) as (s1 & E1 & B1 & C1).
    rewrite E1. unfold bind at 1. rewrite for_each_record_call.
    set (s2 := mkLoopState (world s1)
                 (calls s1 ++ map (fun ch => CCreateWaitTask ch ev) bi)
                 (background s1)).
    unfold bind at 1. unfold asyncio_wait.
    destruct (pick_some (first_done sched :: also_done sched) bi)
      as [finished pending] eqn:EP.
    destruct (finish_wait_spec ev finished [] s2) as (done & s3 & E3 & M3 & F3 & B3 & C3).
    rewrite E3. cbn [app]. unfold bind at 1. rewrite for_each_record_call.
    set (s4 := mkLoopState (world s3) (calls s3 ++ map CCancel pending)
                 (background s3)).
    destruct (first_result_spec (run_order (iter_order sched) done) s4)
      as (s5 & E5 & B5 & C5).
    rewrite E5. exists (resolve (map snd (run_order (iter_order sched) done))), s5.
    split; [reflexivity|].
    split; [rewrite B5; subst s4; cbn; rewrite B3; subst s2; cbn;
            rewrite B1; reflexivity|].
    right. exists finished, pending, done.
    split; [discriminate|]. split; [reflexivity|]. split; [exact M3|].
    split; [exact F3|]. split; [reflexivity|].
    assert (C2 : calls_extend s1 s2 (map (fun ch => CCreateWaitTask ch ev) bi)).
    { eexists. split; [reflexivity|]. apply channel_calls_map. reflexivity. }
    assert (C3' : calls_extend s2 s3
                    (map (fun p => CWaitDone (fst p) ev (snd p)) done)).
    { eexists. split; [exact C3|]. apply channel_calls_map. reflexivity. }
    assert (C4 : calls_extend s3 s4 (map CCancel pending)).
    { eexists. split; [reflexivity|]. apply channel_calls_map. reflexivity. }
    assert (C0 : calls_extend s s0 []) by (exists []; cbn; rewrite app_nil_r; auto).
    pose proof (calls_extend_trans _ _ _ _ _ C0 C1) as T1.
    pose proof (calls_extend_trans _ _ _ _ _ T1 C2) as T2.
    pose proof (calls_extend_trans _ _ _ _ _ T2 C3') as T3.
    pose proof (calls_extend_trans _ _ _ _ _ T3 C4) as T4.
    pose proof (calls_extend_trans _ _ _ _ _ T4 C5) as T5.
    cbn [app] in T5. rewrite app_nil_r, <- !app_assoc in T5. exact T5.
Qed.

Lemma guarded_call_spec (call : NotificationChannel -> World -> outcome unit * World)
    (mk : NotificationChannel -> Call) (msg : string) (ch : NotificationChannel)
    (s : LoopState World) :
  is_channel_call (mk ch) = true ->
  exists s',
    try_except
      (fun s => let '(o, w) := call ch (world s) in
                (o, mkLoopState w (calls s ++ [mk ch]) (background s)))
      (fun _ => logger_exception msg) s
    = (Returns tt, s')
    /\ background s' = background s
    /\ calls_extend s s' [mk ch].
Proof.
  intros Hmk. unfold try_except.
  destruct (call ch (world s)) as [[[]|e] w].
  - eexists. split; [reflexivity|]. split; [reflexivity|].
    exists [mk ch]. split; [reflexivity|].
    unfold channel_calls. rewrite filter_cons_True by exact Hmk. reflexivity.
  - eexists. split; [reflexivity|]. split; [reflexivity|].
    exists [mk ch; CLogException msg]. cbn [calls].
    split; [rewrite <- app_assoc; reflexivity|].
    unfold channel_calls. rewrite filter_cons_True by exact Hmk.
    rewrite filter_cons_False by (cbn; congruence). reflexivity.
Qed.

Lemma lifecycle_spec (call : NotificationChannel -> World -> outcome unit * World)
    (mk : NotificationChannel -> Call) (msg : NotificationChannel -> string)
    (l : list NotificationChannel) :
  (forall ch, is_channel_call (mk ch) = true) ->
  forall s : LoopState World,
  exists s',
    for_each l (fun ch =>
      try_except
        (fun s => let '(o, w) := call ch (world s) in
                  (o, mkLoopState w (calls s ++ [mk ch]) (background s)))
        (fun _ => logger_exception (msg ch))) s
    = (Returns tt, s')
    /\ background s' = background s
    /\ calls_extend s s' (map mk l).
Proof.
  intros Hmk. induction l as [|ch l IH]; intros s; cbn [for_each map].
  - exists s. split; [reflexivity|]. split; [reflexivity|].
    apply calls_extend_refl.
  - destruct (guarded_call_spec call mk (msg ch) ch s (Hmk ch))
      as (s1 & E1 & B1 & C1).
    destruct (IH s1) as (s2 & E2 & B2 & C2).
    exists s2. unfold bind at 1. rewrite E1, E2.
    split; [reflexivity|]. split; [congruence|].
    apply (calls_extend_trans s s1 s2 [mk ch] _ C1 C2).
Qed.

Lemma connect_all_spec r (s : LoopState World) :
  exists s', connect_all chan_connect r s = (Returns tt, s')
             /\ background s' = background s
             /\ calls_extend s s' (map CConnect (channels r)).
Proof.
  apply (lifecycle_spec chan_connect CConnect
           (fun ch => ("Failed to connect channel " ++ name ch)%string)).
  reflexivity.
Qed.

Lemma disconnect_all_spec r (s : LoopState World) :
  exists s', disconnect_all chan_disconnect r s = (Returns tt, s')
             /\ background s' = background s
             /\ calls_extend s s' (map CDisconnect (channels r)).
Proof.
  apply (lifecycle_spec chan_disconnect CDisconnect
           (fun ch => ("Failed to disconnect channel " ++ name ch)%string)).
  reflexivity.
Qed.

Lemma run_tasks_spec (ts : list (NotificationChannel * NotificationEvent)) :
  forall s : LoopState World,
  exists s', run_tasks chan_send ts s = (map (fun _ => Returns tt) ts, s')
             /\ calls_extend s s' (map (fun p => CSend (fst p) (snd p)) ts).
Proof.
  induction ts as [|[ch ev] ts IH]; intros s; cbn [run_tasks map].
  - exists s. split; [reflexivity | apply calls_extend_refl].
  - destruct (safe_send_spec ch ev s) as (s1 & E1 & B1 & C1).
    destruct (IH s1) as (s2 & E2 & C2).
    exists s2. rewrite E1, E2. split; [reflexivity|].
    apply (calls_extend_trans s s1 s2 [CSend ch ev] _ C1 C2).
Qed.

End RouterFacts.

(** ** Filters *)

(** C1, as the claim states it, fails: two channels registered under one
    name share one filter entry, so the later wildcard registration makes
    the channel registered with the filter {"phase_completed"} receive a
    [session_started] event. *)
Lemma shared_name_replaces_filter :
  ~ (forall (regs : list (NotificationChannel * option (list string)))
            (ch : NotificationChannel)
            (evs : list (NotificationEvent * list nat))
            (ev : NotificationEvent),
        (ch, Some ["phase_completed"]) ∈ regs ->
        ev ∈ received ch
               (calls (snd (dispatch_all Sample.send_ok
                              (register_all new_router regs) evs Sample.idle))) ->
        event_type ev = PHASE_COMPLETED).
Proof.
  intros H.
  specialize (H [(Sample.hook_a, Some ["phase_completed"]); (Sample.hook_b, None)]
                Sample.hook_a
                [(Sample.event SESSION_STARTED, [])]
                (Sample.event SESSION_STARTED)).
  assert (E : event_type (Sample.event SESSION_STARTED) = PHASE_COMPLETED).
  { apply H.
    - left.
    - vm_compute. left. }
  discriminate E.
Qed.

(** C1, amended: every registration is kept as a dispatch target, two
    registrations under one name included, and the filter is kept per
    channel name.  When the last registration under a name has the filter
    {"phase_completed"}, every channel registered under that name, that
    one and the earlier ones, receives across all dispatch calls only
    events of type [phase_completed]; when it has a wildcard filter, each
    of them receives every dispatched event.  Every dispatch call
    returns. *)
Theorem filter_of_last_registration
    {World : Type}
    (chan_send : NotificationChannel -> NotificationEvent -> World
                 -> outcome unit * World)
    (r0 : NotificationRouter)
    (pre post : list (NotificationChannel * option (list string)))
    (ch : NotificationChannel) (f : option (list string))
    (evs : list (NotificationEvent * list nat)) (s : LoopState World) :
  Forall (fun p => name (fst p) <> name ch) post ->
  exists s' extra,
    dispatch_all chan_send (register_all r0 (pre ++ (ch, f) :: post)) evs s
    = (Returns tt, s')
    /\ calls s' = calls s ++ extra
    /\ channels (register_all r0 (pre ++ (ch, f) :: post))
       = channels r0 ++ map fst pre ++ ch :: map fst post
    /\ forall ch',
         ch' ∈ map fst pre ++ [ch] -> name ch' = name ch ->
         (f = Some ["phase_completed"] ->
          forall ev, ev ∈ received ch' extra -> event_type ev = PHASE_COMPLETED)
         /\ ("*" ∈ events_or_wildcard f ->
             forall ev, ev ∈ map fst evs -> ev ∈ received ch' extra).
Proof.
  intros Hpost.
  set (r := register_all r0 (pre ++ (ch, f) :: post)).
  destruct (dispatch_all_spec chan_send r evs s) as (s' & extra & E & _ & Hc & R).
  exists s', extra. split; [exact E|]. split; [exact Hc|].
  assert (Hf : filters r !! name ch = Some (events_or_wildcard f))
    by (apply register_all_last_filter; exact Hpost).
  assert (Hch : channels r = channels r0 ++ map fst pre ++ ch :: map fst post).
  { subst r. rewrite register_all_channels, map_app. reflexivity. }
  split; [exact Hch|].
  intros ch' Hin' Hname.
  assert (Hin : ch' ∈ channels r).
  { rewrite Hch. rewrite elem_of_app in Hin'. rewrite !elem_of_app, elem_of_cons.
    destruct Hin' as [H|H]; [auto|].
    apply list_elem_of_singleton in H. auto. }
  split.
  - intros -> ev Hev. apply R in Hev as [_ Hm].
    unfold matching in Hm. apply list_elem_of_filter in Hm as [Hm _].
    unfold _matches in Hm. rewrite Hname, Hf in Hm. cbn in Hm.
    apply orb_true_iff in Hm as [Hm|Hm]; apply bool_decide_eq_true in Hm.
    + apply list_elem_of_singleton in Hm. discriminate.
    + apply list_elem_of_singleton in Hm.
      apply event_type_value_phase_completed. exact Hm.
  - intros Hstar ev Hev. apply R. split; [exact Hev|].
    unfold matching. apply list_elem_of_filter. split; [|exact Hin].
    unfold _matches. rewrite Hname, Hf. cbn.
    apply orb_true_iff. left. apply bool_decide_eq_true. exact Hstar.
Qed.

(** An instance: a webhook registered for [session_completed], then a
    second webhook registered for [phase_completed], then the console,
    with every [send] raising; the first webhook is kept and follows the
    second one's filter. *)
Lemma filter_of_last_registration_witness :
  Forall (fun p => name (fst p) <> name Sample.hook_b)
         [(Sample.console, @None (list string))]
  /\ exists s' extra,
    dispatch_all Sample.send_boom
      (register_all new_router
         ([(Sample.hook_a, Some ["session_completed"])]
          ++ (Sample.hook_b, Some ["phase_completed"])
          :: [(Sample.console, None)]))
      [(Sample.event SESSION_COMPLETED, [1%nat]);
       (Sample.event PHASE_COMPLETED, [])] Sample.idle
    = (Returns tt, s')
    /\ calls s' = calls Sample.idle ++ extra
    /\ channels
         (register_all new_router
            ([(Sample.hook_a, Some ["session_completed"])]
             ++ (Sample.hook_b, Some ["phase_completed"])
             :: [(Sample.console, None)]))
       = channels new_router
         ++ map fst [(Sample.hook_a, Some ["session_completed"])]
         ++ Sample.hook_b :: map fst [(Sample.console, @None (list string))]
    /\ forall ch',
         ch' ∈ map fst [(Sample.hook_a, Some ["session_completed"])]
               ++ [Sample.hook_b] ->
         name ch' = name Sample.hook_b ->
         (Some ["phase_completed"] = Some ["phase_completed"] ->
          forall ev, ev ∈ received ch' extra -> event_type ev = PHASE_COMPLETED)
         /\ ("*" ∈ events_or_wildcard (Some ["phase_completed"]) ->
             forall ev,
               ev ∈ map fst [(Sample.event SESSION_COMPLETED, [1%nat]);
                             (Sample.event PHASE_COMPLETED, [])] ->
               ev ∈ received ch' extra).
Proof.
  assert (H : Forall (fun p => name (fst p) <> name Sample.hook_b)
                     [(Sample.console, @None (list string))])
    by (constructor; [cbn; discriminate | constructor]).
  split; [exact H|].
  apply (filter_of_last_registration Sample.send_boom new_router
           [(Sample.hook_a, Some ["session_completed"])]
           [(Sample.console, None)]
           Sample.hook_b (Some ["phase_completed"])).
  exact H.
Defined.

(** C10: registering a channel with the empty filter list gives the same
    router as registering it with the wildcard filter or with no filter,
    and a dispatch that follows sends the event, whatever its type, to
    that channel. *)
Theorem empty_filter_is_wildcard (r : NotificationRouter)
    (ch : NotificationChannel) :
  register r ch (Some []) = register r ch (Some ["*"])
  /\ register r ch (Some []) = register r ch None
  /\ forall (World : Type)
            (chan_send : NotificationChannel -> NotificationEvent -> World
                         -> outcome unit * World)
            (ev : NotificationEvent) (picks : list nat) (s : LoopState World),
       _matches (register r ch (Some [])) ch ev = true
       /\ exists s' extra,
            dispatch chan_send (register r ch (Some [])) ev picks s
            = (Returns tt, s')
            /\ calls s' = calls s ++ extra
            /\ ev ∈ received ch extra.
Proof.
  split; [reflexivity|]. split; [reflexivity|].
  intros World chan_send ev picks s.
  assert (Hm : _matches (register r ch (Some [])) ch ev = true).
  { unfold _matches, register. cbn. rewrite lookup_insert_eq. reflexivity. }
  split; [exact Hm|].
  destruct (dispatch_spec chan_send (register r ch (Some [])) ev picks s)
    as (s' & order & E & _ & P & (extra & Hc & Hv)).
  exists s', extra. split; [exact E|]. split; [exact Hc|].
  rewrite <- received_channel_calls, Hv, elem_of_received_sends.
  split; [reflexivity|]. rewrite P. unfold matching.
  apply list_elem_of_filter. split; [exact Hm|].
  cbn. rewrite elem_of_app, list_elem_of_singleton. auto.
Qed.

(** ** Failure isolation *)

(** C3: whatever the channels' [send], [connect], [disconnect] and
    [wait_for_response] do (return or raise, in any state of the world),
    [dispatch], [request_approval], [connect_all] and [disconnect_all]
    return normally, and every channel concerned is still called:
    [dispatch] sends once to each matching registration;
    [request_approval] hands each matching notify-only channel to the loop
    (where the send cannot raise either), sends to each bidirectional
    channel and creates a task for each; the lifecycle calls reach every
    registered channel. *)
Theorem channel_failures_do_not_escape
    {World : Type}
    (chan_send : NotificationChannel -> NotificationEvent -> World
                 -> outcome unit * World)
    (chan_wait_for_response : NotificationChannel -> NotificationEvent -> World
                              -> outcome bool * World)
    (chan_connect chan_disconnect : NotificationChannel -> World
                                    -> outcome unit * World)
    (r : NotificationRouter) (ev : NotificationEvent)
    (picks : list nat) (sched : WaitSchedule) (s : LoopState World) :
  (exists s' order,
      dispatch chan_send r ev picks s = (Returns tt, s')
      /\ order ≡ₚ matching r ev
      /\ calls_extend s s' (map (fun ch => CSend ch ev) order))
  /\ (exists b s' rest s'',
        request_approval chan_send chan_wait_for_response r ev sched s
        = (Returns b, s')
        /\ background s'
           = background s ++ map (fun ch => (ch, ev)) (notify_only r ev)
        /\ calls_extend s s'
             (map (fun ch => CSend ch ev) (bidirectional r ev)
              ++ map (fun ch => CCreateWaitTask ch ev) (bidirectional r ev)
              ++ rest)
        /\ run_background chan_send s'
           = (map (fun _ => Returns tt) (background s'), s'')
        /\ calls_extend s' s''
             (map (fun p => CSend (fst p) (snd p)) (background s')))
  /\ (exists s', connect_all chan_connect r s = (Returns tt, s')
                 /\ calls_extend s s' (map CConnect (channels r)))
  /\ (exists s', disconnect_all chan_disconnect r s = (Returns tt, s')
                 /\ calls_extend s s' (map CDisconnect (channels r))).
Proof.
  split; [|split; [|split]].
  - destruct (dispatch_spec chan_send r ev picks s) as (s' & order & E & _ & P & C).
    exists s', order. auto.
  - destruct (request_approval_spec chan_send chan_wait_for_response r ev sched s)
      as (b & s' & E & B & H).
    destruct (run_tasks_spec chan_send (background s')
                (mkLoopState (world s') (calls s') [])) as (s'' & E2 & C2).
    destruct H as [(Hb & _ & Hc)|(fin & pend & done & _ & _ & _ & _ & _ & C)].
    + exists b, s', [], s''. split; [exact E|]. split; [exact B|].
      split; [|split; [exact E2 | exact C2]].
      rewrite Hb. cbn. exists []. rewrite app_nil_r. auto.
    + exists b, s',
        (map (fun p => CWaitDone (fst p) ev (snd p)) done ++ map CCancel pend), s''.
      split; [exact E|]. split; [exact B|].
      split; [exact C|]. split; [exact E2 | exact C2].
  - destruct (connect_all_spec chan_connect r s) as (s' & E & _ & C). eauto.
  - destruct (disconnect_all_spec chan_disconnect r s) as (s' & E & _ & C). eauto.
Qed.

(** [dispatch] when every [send] raises: the concrete run. *)
Example dispatch_all_sends_raise :
  let r := register_all new_router
             [(Sample.hook_a, None); (Sample.console, None)] in
  let '(o, s') := dispatch Sample.send_boom r (Sample.event PHASE_COMPLETED)
                    [1%nat] Sample.idle in
  o = Returns tt
  /\ channel_calls (calls s')
     = [CSend Sample.console (Sample.event PHASE_COMPLETED);
        CSend Sample.hook_a (Sample.event PHASE_COMPLETED)].
Proof. vm_compute. split; reflexivity. Qed.

(** ** Approval *)

(** C6: with no matching bidirectional channel [request_approval] returns
    [True], however many notify-only channels match (none included). *)
Theorem request_approval_no_bidirectional
    {World : Type}
    (chan_send : NotificationChannel -> NotificationEvent -> World
                 -> outcome unit * World)
    (chan_wait_for_response : NotificationChannel -> NotificationEvent -> World
                              -> outcome bool * World)
    (r : NotificationRouter) (ev : NotificationEvent)
    (sched : WaitSchedule) (s : LoopState World) :
  bidirectional r ev = [] ->
  fst (request_approval chan_send chan_wait_for_response r ev sched s)
  = Returns true.
Proof.
  intros Hb.
  destruct (request_approval_spec chan_send chan_wait_for_response r ev sched s)
    as (b & s' & E & _ & [(_ & -> & _)|(fin & pend & done & Hne & _)]).
  - rewrite E. reflexivity.
  - contradiction.
Qed.

(** An instance: two notify-only channels whose [send] raises. *)
Lemma request_approval_no_bidirectional_witness :
  bidirectional
    (register_all new_router [(Sample.hook_a, None); (Sample.console, Some [])])
    Sample.approval = []
  /\ fst (request_approval Sample.send_boom Sample.wait_deny
            (register_all new_router
               [(Sample.hook_a, None); (Sample.console, Some [])])
            Sample.approval Sample.both_done Sample.idle)
     = Returns true.
Proof.
  split; [reflexivity|].
  apply (request_approval_no_bidirectional Sample.send_boom Sample.wait_deny).
  reflexivity.
Defined.

(** No channel at all. *)
Example request_approval_empty_router :
  fst (request_approval Sample.send_ok Sample.wait_deny new_router
         Sample.approval Sample.first_only Sample.idle) = Returns true.
Proof. reflexivity. Qed.





(** C4, as the claim states it, fails: two bidirectional channels, the
    first task to finish raised and the second is finished as well when
    [asyncio.wait] returns with the answer deny; the loop over [done]
    skips the failed task and returns the other one's [False], not the
    auto-approve [True] the claim asks for the first finished task. *)
Lemma first_failure_is_not_auto_approved :
  ~ (forall (r : NotificationRouter) (ev : NotificationEvent)
            (sched : WaitSchedule)
            (ch : NotificationChannel) (o : outcome bool)
            (others : list (NotificationChannel * outcome bool)),
        (2 <= length (bidirectional r ev))%nat ->
        wait_done
          (calls (snd (request_approval Sample.send_ok Sample.wait_fail_or_deny
                         r ev sched Sample.idle)))
        = (ch, o) :: others ->
        fst (request_approval Sample.send_ok Sample.wait_fail_or_deny
               r ev sched Sample.idle)
        = Returns (result_or_approve o)).
Proof.
  intros H.
  specialize (H (register_all new_router
                   [(Sample.chat_a, None); (Sample.chat_b, None)])
                Sample.approval Sample.both_done
                Sample.chat_a (Raises "poll failed")
                [(Sample.chat_b, Returns false)]).
  assert (E : Returns false = Returns (result_or_approve (Raises "poll failed"))).
  { apply H; [vm_compute; lia | reflexivity]. }
  discriminate E.
Qed.

(** C4, amended: with at least two matching bidirectional channels,
    [request_approval] returns a boolean and never raises; every
    [wait_for_response] task either is finished when [asyncio.wait]
    returns (at least one is) or has its cancellation requested before the
    method returns; the value returned is the response of a finished task,
    or the auto-approve [True] when every finished task raised; and when
    exactly one task is finished it is that task's response, or [True] if
    it raised. *)
Theorem request_approval_race
    {World : Type}
    (chan_send : NotificationChannel -> NotificationEvent -> World
                 -> outcome unit * World)
    (chan_wait_for_response : NotificationChannel -> NotificationEvent -> World
                              -> outcome bool * World)
    (r : NotificationRouter) (ev : NotificationEvent)
    (sched : WaitSchedule) (s : LoopState World) :
  (2 <= length (bidirectional r ev))%nat ->
  exists b s' extra,
    request_approval chan_send chan_wait_for_response r ev sched s
    = (Returns b, s')
    /\ calls s' = calls s ++ extra
    /\ wait_done extra <> []
    /\ map fst (wait_done extra) ++ cancelled extra ≡ₚ bidirectional r ev
    /\ Forall (fun p => exists w,
                  fst (chan_wait_for_response (fst p) ev w) = snd p)
              (wait_done extra)
    /\ ((exists ch, (ch, Returns b) ∈ wait_done extra)
        \/ (b = true
            /\ Forall (fun p => exists e, snd p = Raises e) (wait_done extra)))
    /\ (forall ch o, wait_done extra = [(ch, o)] -> b = result_or_approve o).
Proof.
  intros Hlen.
  destruct (request_approval_spec chan_send chan_wait_for_response r ev sched s)
    as (b & s' & E & _ & [(Hn & _)|(fin & pend & done & Hne & P & M & F & Hb & C)]).
  { rewrite Hn in Hlen. cbn in Hlen. lia. }
  destruct C as (extra & Hc & Hv).
  exists b, s', extra. split; [exact E|]. split; [exact Hc|].
  assert (Hwd : wait_done extra = done).
  { rewrite <- wait_done_channel_calls, Hv. unfold wait_done.
    rewrite !omap_app.
    rewrite (omap_map_none _ (fun ch => CSend ch ev)) by reflexivity.
    rewrite (omap_map_none _ (fun ch => CCreateWaitTask ch ev)) by reflexivity.
    rewrite (omap_map_none _ CCancel) by reflexivity.
    rewrite (omap_map_some _ (fun p => CWaitDone (fst p) ev (snd p))
               (fun p => p)) by (intros [? ?]; reflexivity).
    rewrite map_id, app_nil_r. reflexivity. }
  assert (Hcd : cancelled extra = pend).
  { rewrite <- cancelled_channel_calls, Hv. unfold cancelled.
    rewrite !omap_app.
    rewrite (omap_map_none _ (fun ch => CSend ch ev)) by reflexivity.
    rewrite (omap_map_none _ (fun ch => CCreateWaitTask ch ev)) by reflexivity.
    rewrite (omap_map_none _ (fun p => CWaitDone (fst p) ev (snd p)))
      by reflexivity.
    rewrite (omap_map_some _ CCancel (fun p => p)) by reflexivity.
    rewrite map_id. reflexivity. }
  rewrite Hwd, Hcd, M.
  split.
  { pose proof (pick_some_nonempty _ _ _ _ _ Hne P) as Hfin.
    intros ->. cbn in M. congruence. }
  split; [eapply pick_some_perm; exact P|].
  split; [exact F|].
  pose proof (run_order_perm (iter_order sched) done) as Hperm.
  split.
  - destruct (resolve_cases (map snd (run_order (iter_order sched) done)))
      as [Hin|[Ht Hall]].
    + left. rewrite <- Hb in Hin.
      apply list_elem_of_fmap in Hin as [[c o] [Ho Hin]]. cbn in Ho. subst o.
      exists c. rewrite <- Hperm. exact Hin.
    + right. split; [congruence|].
      rewrite <- Hperm. clear -Hall.
      induction (run_order (iter_order sched) done) as [|p l IH];
        [constructor|].
      inversion Hall; subst. constructor; auto.
  - intros c o ->. rewrite run_order_single in Hb. cbn in Hb.
    rewrite Hb. destruct o; reflexivity.
Qed.

(** An instance: two chat channels, the first one finished alone. *)
Lemma request_approval_race_witness :
  (2 <= length (bidirectional
                  (register_all new_router
                     [(Sample.chat_a, None); (Sample.chat_b, None)])
                  Sample.approval))%nat
  /\ exists b s' extra,
       request_approval Sample.send_ok Sample.wait_fail_or_deny
         (register_all new_router [(Sample.chat_a, None); (Sample.chat_b, None)])
         Sample.approval Sample.first_only Sample.idle
       = (Returns b, s')
       /\ calls s' = calls Sample.idle ++ extra
       /\ wait_done extra <> []
       /\ map fst (wait_done extra) ++ cancelled extra
          ≡ₚ bidirectional
               (register_all new_router
                  [(Sample.chat_a, None); (Sample.chat_b, None)])
               Sample.approval
       /\ Forall (fun p => exists w,
                     fst (Sample.wait_fail_or_deny (fst p) Sample.approval w)
                     = snd p)
                 (wait_done extra)
       /\ ((exists ch, (ch, Returns b) ∈ wait_done extra)
           \/ (b = true
               /\ Forall (fun p => exists e, snd p = Raises e)
                         (wait_done extra)))
       /\ (forall ch o, wait_done extra = [(ch, o)] -> b = result_or_approve o).
Proof.
  split; [vm_compute; lia|].
  apply (request_approval_race Sample.send_ok Sample.wait_fail_or_deny).
  vm_compute. lia.
Defined.

(** ** Credentials and capability *)

(** C2, as the claim states it, fails for the Telegram channel: built
    with an empty token and an empty chat id it still declares
    [supports_responses = True]. *)
Lemma telegram_keeps_capability_without_credentials :
  ~ (forall token chat_id : string,
        token = "" \/ chat_id = "" ->
        Telegram.supports_responses (Telegram.init token chat_id) = false).
Proof.
  intros H. specialize (H "" "" (or_introl eq_refl)). discriminate H.
Qed.

(** C2, amended: construction is total for both channels.  A Discord
    channel supports responses exactly when its bot token and its channel
    id are both non-empty, and is notify-only otherwise; a Telegram
    channel supports responses whatever its credentials. *)
Theorem capability_after_construction :
  (forall webhook_url bot_token channel_id : string,
      (Discord.supports_responses (Discord.init webhook_url bot_token channel_id)
       = true <-> bot_token <> "" /\ channel_id <> "")
      /\ (Discord.supports_responses (Discord.init webhook_url bot_token channel_id)
          = false <-> bot_token = "" \/ channel_id = ""))
  /\ (forall token chat_id : string,
        Telegram.supports_responses (Telegram.init token chat_id) = true).
Proof.
  split; [|reflexivity].
  intros w b c. unfold Discord.init. cbn.
  destruct b as [|a b], c as [|a' c]; cbn; split; split;
    try (intros H; discriminate H); try reflexivity; try tauto;
    try (intros [H1 H2]; congruence);
    try (intros [H|H]; discriminate H);
    try (intros _; split; discriminate).
Qed.

(** ** E-mail batching *)

Lemma send_email_with_recipient (ch : Email.EmailChannel)
    (events : list NotificationEvent) :
  Email.to_addrs ch <> [] -> events <> [] ->
  exists m, Email._send_email ch events = [m] /\ Email.body m = events.
Proof.
  intros Ht He. unfold Email._send_email.
  destruct events as [|e es]; [congruence|].
  destruct (Email.to_addrs ch) as [|a l]; [congruence|].
  eexists. split; reflexivity.
Qed.

(** Events that arrive within the interval are queued and nothing is
    sent. *)
Lemma send_all_within_interval (batch : list (Z * NotificationEvent)) :
  forall ch : Email.EmailChannel,
  Forall (fun p => Email.immediate (snd p) = false
                   /\ (fst p - Email._last_sent ch < Email.min_interval ch)%Z)
         batch ->
  Email.send_all batch ch
  = (Email.set_state ch (Email._last_sent ch)
       (Email._pending ch ++ map snd batch), []).
Proof.
  induction batch as [|[t e] batch IH]; intros ch H; cbn [Email.send_all map snd].
  - rewrite app_nil_r. destruct ch; reflexivity.
  - inversion H as [|? ? [Hi Ht] Hrest]; subst. cbn in Hi, Ht.
    unfold Email.send. rewrite Hi.
    destruct (Z.leb_spec (Email.min_interval ch) (t - Email._last_sent ch));
      [lia|].
    rewrite IH by exact Hrest. cbn. rewrite <- app_assoc. reflexivity.
Qed.

Lemma send_all_app (a b : list (Z * NotificationEvent)) :
  forall ch : Email.EmailChannel,
  Email.send_all (a ++ b) ch
  = (fst (Email.send_all b (fst (Email.send_all a ch))),
     snd (Email.send_all a ch)
     ++ snd (Email.send_all b (fst (Email.send_all a ch)))).
Proof.
  induction a as [|[t e] a IH]; intros ch; cbn [app Email.send_all].
  - cbn. destruct (Email.send_all b ch); reflexivity.
  - destruct (Email.send t e ch) as [c1 o1]. rewrite IH.
    destruct (Email.send_all a c1) as [c2 o2]. cbn.
    rewrite app_assoc. reflexivity.
Qed.

(** C5, as the claim states it, fails twice.  A channel built with the
    default (empty) recipient list sends no e-mail for a critical or
    terminal event, although it empties its queue.  And a flush happens
    only inside a [send] call: events sent within the interval are queued,
    and when the interval then elapses with no further call (these sends
    being all the calls made), no message is ever produced, even with a
    recipient. *)
Lemma email_flush_as_stated_fails :
  ~ (forall (ch : Email.EmailChannel) (now : Z) (ev : NotificationEvent),
        Email.immediate ev = true ->
        exists m, snd (Email.send now ev ch) = [m]
                  /\ Email.body m = Email._pending ch ++ [ev])
  /\ ~ (forall (ch : Email.EmailChannel) (batch : list (Z * NotificationEvent)),
          Email.to_addrs ch <> [] -> batch <> [] ->
          Forall (fun p => Email.immediate (snd p) = false
                           /\ (fst p - Email._last_sent ch
                               < Email.min_interval ch)%Z) batch ->
          exists m, snd (Email.send_all batch ch) = [m]
                    /\ Email.body m = Email._pending ch ++ map snd batch).
Proof.
  split.
  - intros H.
    destruct (H (Email.init_default 60) 1000%Z (Sample.event SESSION_FAILED)
                eq_refl) as (m & Hm & _).
    discriminate Hm.
  - intros H.
    destruct (H (fst (Email.send 9999%Z (Sample.event SESSION_STARTED)
                        Sample.mailbox))
                [(10000%Z, Sample.event PHASE_STARTED);
                 (10005%Z, Sample.event FINDING)]) as (m & Hm & _).
    + discriminate.
    + discriminate.
    + repeat constructor.
    + discriminate Hm.
Qed.

(** C5, amended.  For an e-mail channel with at least one recipient,
    (a) a [send] of a critical or session-terminal event hands exactly one
    message to SMTP at once, made of the queued events followed by that
    event, and leaves the queue empty; (b) events that are neither, each
    sent within [min_interval] of the last flush, are queued without any
    message, and the first later [send] that is critical or terminal, or
    is made once the interval has elapsed, produces exactly one message
    holding the queued events, all of those events and the event of that
    call, and leaves the queue empty.  For a channel without recipient,
    (c) a [send] of a critical or session-terminal event empties the queue
    and hands nothing to SMTP. *)
Theorem email_flush (ch : Email.EmailChannel) :
  (Email.to_addrs ch <> [] ->
   (forall (now : Z) (ev : NotificationEvent),
       Email.immediate ev = true ->
       exists m,
         Email.send now ev ch = (Email.set_state ch now [], [m])
         /\ Email.body m = Email._pending ch ++ [ev]
         /\ Email._pending (fst (Email.send now ev ch)) = [])
   /\ (forall (batch : list (Z * NotificationEvent)) (now : Z)
              (ev : NotificationEvent),
         Forall (fun p => Email.immediate (snd p) = false
                          /\ (fst p - Email._last_sent ch
                              < Email.min_interval ch)%Z) batch ->
         Email.immediate ev = true
         \/ (Email.min_interval ch <= now - Email._last_sent ch)%Z ->
         snd (Email.send_all batch ch) = []
         /\ exists m ch',
              Email.send_all (batch ++ [(now, ev)]) ch = (ch', [m])
              /\ Email.body m = Email._pending ch ++ map snd batch ++ [ev]
              /\ Email._pending ch' = []
              /\ Email._last_sent ch' = now))
  /\ (Email.to_addrs ch = [] ->
      forall (now : Z) (ev : NotificationEvent),
        Email.immediate ev = true ->
        Email.send now ev ch = (Email.set_state ch now [], [])
        /\ Email._pending (fst (Email.send now ev ch)) = []).
Proof.
  split.
  - intros Hto. split.
    + intros now ev Hi.
      destruct (send_email_with_recipient ch (Email._pending ch ++ [ev]) Hto)
        as (m & Em & Bm); [destruct (Email._pending ch); discriminate|].
      exists m. unfold Email.send. rewrite Hi, Em. cbn. auto.
    + intros batch now ev Hb Htrig.
      pose proof (send_all_within_interval batch ch Hb) as Eb.
      split; [rewrite Eb; reflexivity|].
      set (ch1 := Email.set_state ch (Email._last_sent ch)
                    (Email._pending ch ++ map snd batch)) in *.
      assert (Hto1 : Email.to_addrs ch1 <> []) by exact Hto.
      destruct (send_email_with_recipient ch1 (Email._pending ch1 ++ [ev]) Hto1)
        as (m & Em & Bm); [destruct (Email._pending ch1); discriminate|].
      assert (Es : Email.send now ev ch1 = (Email.set_state ch1 now [], [m])).
      { unfold Email.send. destruct (Email.immediate ev) eqn:Hi.
        - rewrite Em. reflexivity.
        - destruct Htrig as [Ht|Ht]; [discriminate|].
          change (Email.min_interval ch1) with (Email.min_interval ch).
          change (Email._last_sent ch1) with (Email._last_sent ch).
          destruct (Z.leb_spec (Email.min_interval ch)
                      (now - Email._last_sent ch)); [|lia].
          rewrite Em. reflexivity. }
      exists m, (Email.set_state ch1 now []).
      split.
      * rewrite send_all_app, Eb. cbn [fst snd Email.send_all].
        rewrite Es. reflexivity.
      * split; [|split; reflexivity].
        rewrite Bm. subst ch1. cbn. rewrite <- app_assoc. reflexivity.
  - intros Hto now ev Hi. unfold Email.send. rewrite Hi.
    unfold Email._send_email. rewrite Hto.
    destruct (Email._pending ch ++ [ev]); cbn; auto.
Qed.

(** An instance: a channel with one recipient and a long interval, just
    after a flush; three events are queued and the session's end sends
    them in one message. *)
Lemma email_flush_witness :
  Email.to_addrs
    (fst (Email.send 9999%Z (Sample.event SESSION_STARTED) Sample.mailbox))
  <> []
  /\ exists m ch',
       Email.send_all
         ([(10000%Z, Sample.event PHASE_STARTED);
           (10005%Z, Sample.event FINDING);
           (10010%Z, Sample.event PHASE_COMPLETED)]
          ++ [(10020%Z, Sample.event SESSION_COMPLETED)])
         (fst (Email.send 9999%Z (Sample.event SESSION_STARTED) Sample.mailbox))
       = (ch', [m])
       /\ Email.body m
          = [] ++ map snd [(10000%Z, Sample.event PHASE_STARTED);
                           (10005%Z, Sample.event FINDING);
                           (10010%Z, Sample.event PHASE_COMPLETED)]
               ++ [Sample.event SESSION_COMPLETED]
       /\ Email._pending ch' = []
       /\ Email._last_sent ch' = 10020%Z.
Proof.
  assert (H : Email.to_addrs
                (fst (Email.send 9999%Z (Sample.event SESSION_STARTED)
                        Sample.mailbox)) <> []) by discriminate.
  split; [exact H|].
  apply (proj2 (proj1 (email_flush
                         (fst (Email.send 9999%Z (Sample.event SESSION_STARTED)
                                 Sample.mailbox))) H)).
  - repeat constructor.
  - left. reflexivity.
Defined.

(** ** Heartbeat *)

Lemma heartbeat_idle_step render (m : Heartbeat.HeartbeatMonitor)
    (a : Heartbeat.Action) :
  (Heartbeat.interval m <= 0)%Z -> Heartbeat._task m = None ->
  Heartbeat.loop_tasks m = [] ->
  snd (Heartbeat.step render m a) = []
  /\ (Heartbeat.interval (fst (Heartbeat.step render m a)) <= 0)%Z
  /\ Heartbeat._task (fst (Heartbeat.step render m a)) = None
  /\ Heartbeat.loop_tasks (fst (Heartbeat.step render m a)) = [].
Proof.
  intros Hi Ht Hl. destruct a; cbn.
  - unfold Heartbeat.start.
    destruct (Z.leb_spec (Heartbeat.interval m) 0); [|lia]. cbn. auto.
  - unfold Heartbeat.stop. rewrite Ht. cbn. auto.
  - auto.
  - unfold Heartbeat.done. rewrite Hl. cbn. auto.
Qed.

Lemma heartbeat_idle_run render (acts : list Heartbeat.Action) :
  forall m : Heartbeat.HeartbeatMonitor,
  (Heartbeat.interval m <= 0)%Z -> Heartbeat._task m = None ->
  Heartbeat.loop_tasks m = [] ->
  snd (Heartbeat.run render m acts) = []
  /\ Heartbeat._task (fst (Heartbeat.run render m acts)) = None.
Proof.
  induction acts as [|a acts IH]; intros m Hi Ht Hl; cbn [Heartbeat.run].
  - auto.
  - destruct (heartbeat_idle_step render m a Hi Ht Hl) as (Hd & Hi' & Ht' & Hl').
    destruct (Heartbeat.step render m a) as [m1 d1]. cbn in Hd, Hi', Ht', Hl'.
    destruct (IH m1 Hi' Ht' Hl') as (Hd2 & Ht2).
    destruct (Heartbeat.run render m1 acts) as [m2 d2]. cbn in *.
    subst. auto.
Qed.

(** C9: a monitor built with [interval <= 0] passes no event to
    [router.dispatch], whatever is called on it and however often the
    loop runs; [start] returns without creating a task, leaving the
    monitor idle; and [stop] on a monitor that was never started, with any
    interval, returns normally and changes nothing. *)
Theorem heartbeat_disabled_never_dispatches
    (render : Z -> string -> Z -> Z -> string)
    (session : string) (interval started_at : Z) :
  (interval <= 0)%Z ->
  (forall acts : list Heartbeat.Action,
      snd (Heartbeat.run render (Heartbeat.init session interval started_at) acts)
      = []
      /\ Heartbeat._task
           (fst (Heartbeat.run render
                   (Heartbeat.init session interval started_at) acts)) = None)
  /\ Heartbeat.start (Heartbeat.init session interval started_at)
     = (Returns tt, Heartbeat.init session interval started_at)
  /\ (forall any_interval : Z,
        Heartbeat.stop (Heartbeat.init session any_interval started_at)
        = (Returns tt, Heartbeat.init session any_interval started_at)).
Proof.
  intros Hi. split; [|split].
  - intros acts. apply heartbeat_idle_run; [exact Hi | reflexivity..].
  - unfold Heartbeat.start. cbn.
    destruct (Z.leb_spec interval 0); [reflexivity | lia].
  - reflexivity.
Qed.

(** An instance: interval 0, started, woken, updated and stopped. *)
Lemma heartbeat_disabled_never_dispatches_witness :
  (0 <= 0)%Z
  /\ snd (Heartbeat.run (fun _ _ _ _ => "Running")
            (Heartbeat.init "test-session" 0 0)
            [Heartbeat.Start; Heartbeat.TaskWakes 0 300;
             Heartbeat.UpdateStatus "plan" 2 5; Heartbeat.TaskWakes 0 86400;
             Heartbeat.Stop; Heartbeat.TaskWakes 0 90000]) = [].
Proof.
  split; [lia|].
  apply (proj1 (heartbeat_disabled_never_dispatches
                  (fun _ _ _ _ => "Running") "test-session" 0 0 ltac:(lia))).
Defined.

(** With a positive interval the same actions do dispatch: the monitor
    is not idle by construction. *)
Example heartbeat_enabled_dispatches :
  length (snd (Heartbeat.run (fun _ _ _ _ => "Running")
                 (Heartbeat.init "test-session" 300 0)
                 [Heartbeat.Start; Heartbeat.TaskWakes 0 300;
                  Heartbeat.TaskWakes 0 600; Heartbeat.Stop;
                  Heartbeat.TaskWakes 0 900])) = 2%nat.
Proof. reflexivity. Qed.

(** A second [start] without a [stop] leaves the first task in the
    loop: [stop] cancels the task held, the one of the second [start],
    and the first one still dispatches afterwards. *)
Example heartbeat_second_start_leaks_first_task :
  length (snd (Heartbeat.run (fun _ _ _ _ => "Running")
                 (Heartbeat.init "test-session" 300 0)
                 [Heartbeat.Start; Heartbeat.Start; Heartbeat.Stop;
                  Heartbeat.TaskWakes 1 300; Heartbeat.TaskWakes 0 300]))
  = 1%nat.
Proof. reflexivity. Qed.

(** ** Waiting for a response *)

Lemma scan_updates_decision ev (updates : list Telegram.Update) :
  forall last b last',
  Telegram.scan_updates ev updates last = (Some b, last') ->
  exists u, u ∈ updates
            /\ Telegram.data_of u
               = if b then Telegram.approve_data ev else Telegram.deny_data ev.
Proof.
  induction updates as [|u us IH]; intros last b last' H;
    cbn [Telegram.scan_updates] in H; [discriminate|].
  destruct (decide (Telegram.data_of u = Telegram.approve_data ev)) as [Ha|Ha].
  - injection H as <- _. exists u. split; [left | exact Ha].
  - destruct (decide (Telegram.data_of u = Telegram.deny_data ev)) as [Hd|Hd].
    + injection H as <- _. exists u. split; [left | exact Hd].
    + destruct (IH _ _ _ H) as (u' & Hin & Hu').
      exists u'. split; [right; exact Hin | exact Hu'].
Qed.

Lemma scan_updates_undecided ev (updates : list Telegram.Update) :
  forall last,
  forallb (fun u =>
             negb (bool_decide (Telegram.data_of u = Telegram.approve_data ev))
             && negb (bool_decide (Telegram.data_of u = Telegram.deny_data ev)))
          updates = true ->
  fst (Telegram.scan_updates ev updates last) = None.
Proof.
  induction updates as [|u us IH]; intros last H; cbn [Telegram.scan_updates];
    [reflexivity|].
  cbn [forallb] in H. apply andb_true_iff in H as [Hu Hus].
  apply andb_true_iff in Hu as [Ha Hd].
  apply negb_true_iff, bool_decide_eq_false in Ha, Hd.
  destruct (decide (Telegram.data_of u = Telegram.approve_data ev));
    [contradiction|].
  destruct (decide (Telegram.data_of u = Telegram.deny_data ev));
    [contradiction|].
  apply IH. exact Hus.
Qed.

Lemma pressed_later deadline p trace data :
  Telegram.pressed deadline trace data ->
  Telegram.pressed deadline (p :: trace) data.
Proof.
  intros (now & ups & u & Hin & H). exists now, ups, u.
  split; [right; exact Hin | exact H].
Qed.

Lemma poll_loop_decision ev deadline (trace : list (Z * Telegram.PollResult)) :
  forall last b last',
  Telegram.poll_loop ev deadline last trace = Some (Returns b, last') ->
  Telegram.pressed deadline trace
    (if b then Telegram.approve_data ev else Telegram.deny_data ev)
  \/ (b = true /\ exists now r, (now, r) ∈ trace /\ (deadline <= now)%Z).
Proof.
  induction trace as [|[now r] trace IH]; intros last b last' H;
    cbn [Telegram.poll_loop] in H; [discriminate|].
  assert (Hrec : forall l,
    Telegram.poll_loop ev deadline l trace = Some (Returns b, last') ->
    Telegram.pressed deadline ((now, r) :: trace)
      (if b then Telegram.approve_data ev else Telegram.deny_data ev)
    \/ (b = true
        /\ exists now' r', (now', r') ∈ (now, r) :: trace
                           /\ (deadline <= now')%Z)).
  { intros l Hl. destruct (IH _ _ _ Hl) as [Hp|[Hb (n' & r' & Hin & Hd)]].
    - left. apply pressed_later. exact Hp.
    - right. split; [exact Hb|]. exists n', r'. split; [right; exact Hin|exact Hd]. }
  destruct (Z.ltb_spec now deadline) as [Hlt|Hge].
  - destruct r as [|e|[|] updates]; try discriminate; eauto.
    destruct (Telegram.scan_updates ev updates last) as [[b'|] l'] eqn:Es.
    + injection H as <- <-. left.
      destruct (scan_updates_decision _ _ _ _ _ Es) as (u & Hin & Hu).
      exists now, updates, u. split; [left|]. auto.
    + eauto.
  - injection H as <- <-. right. split; [reflexivity|].
    exists now, r. split; [left | exact Hge].
Qed.

Lemma poll_loop_timeout ev deadline (pre : list (Z * Telegram.PollResult)) :
  forall last now r post,
  Forall (fun p => Telegram.undecided ev (snd p) = true) pre ->
  (deadline <= now)%Z ->
  exists last',
    Telegram.poll_loop ev deadline last (pre ++ (now, r) :: post)
    = Some (Returns true, last').
Proof.
  induction pre as [|[n0 r0] pre IH]; intros last now r post Hq Hd;
    cbn [app Telegram.poll_loop].
  - destruct (Z.ltb_spec now deadline); [lia|]. eauto.
  - inversion Hq as [|? ? Hq0 Hq']; subst. cbn in Hq0.
    destruct (Z.ltb_spec n0 deadline); [|eauto].
    destruct r0 as [|e|[|] updates]; try discriminate; eauto.
    pose proof (scan_updates_undecided ev updates last Hq0) as Hs.
    destruct (Telegram.scan_updates ev updates last) as [o l']. cbn in Hs.
    subst o. eauto.
Qed.

Lemma check_reactions_decided react mid b :
  Discord.check_reactions react mid [Discord.APPROVE_EMOJI; Discord.DENY_EMOJI]
  = Discord.Decided b ->
  exists users,
    react mid (if b then Discord.APPROVE_EMOJI else Discord.DENY_EMOJI)
    = Discord.ReactResponse 200 users
    /\ Discord.human_reacted users = true.
Proof.
  cbn [Discord.check_reactions].
  destruct (react mid Discord.APPROVE_EMOJI) as [|e|st users] eqn:Ea;
    try discriminate.
  assert (Hdeny :
    match react mid Discord.DENY_EMOJI with
    | Discord.ReactHTTPError => Discord.HTTPFailed
    | Discord.ReactException e => Discord.Raised e
    | Discord.ReactResponse status users0 =>
        if decide (status = 200%Z)
        then if Discord.human_reacted users0
             then Discord.Decided
                    (bool_decide (Discord.DENY_EMOJI = Discord.APPROVE_EMOJI))
             else Discord.Nothing
        else Discord.Nothing
    end = Discord.Decided b ->
    exists users0,
      react mid (if b then Discord.APPROVE_EMOJI else Discord.DENY_EMOJI)
      = Discord.ReactResponse 200 users0
      /\ Discord.human_reacted users0 = true).
  { destruct (react mid Discord.DENY_EMOJI) as [|e'|st' users'] eqn:Ed;
      try discriminate.
    destruct (decide (st' = 200%Z)) as [->|]; [|discriminate].
    destruct (Discord.human_reacted users') eqn:Hh; [|discriminate].
    intros [= <-]. cbn. exists users'. rewrite Ed. auto. }
  destruct (decide (st = 200%Z)) as [->|]; [|exact Hdeny].
  destruct (Discord.human_reacted users) eqn:Hh; [|exact Hdeny].
  intros [= <-]. cbn. exists users. auto.
Qed.

Lemma check_reactions_undecided react mid :
  Discord.undecided mid react = true ->
  Discord.check_reactions react mid [Discord.APPROVE_EMOJI; Discord.DENY_EMOJI]
  = Discord.HTTPFailed
  \/ Discord.check_reactions react mid [Discord.APPROVE_EMOJI; Discord.DENY_EMOJI]
     = Discord.Nothing.
Proof.
  unfold Discord.undecided, Discord.no_human. cbn [Discord.check_reactions].
  intros H. apply andb_true_iff in H as [Ha Hd].
  destruct (react mid Discord.APPROVE_EMOJI) as [|e|st users];
    [left; reflexivity | discriminate |].
  assert (Hdeny :
    match react mid Discord.DENY_EMOJI with
    | Discord.ReactHTTPError => Discord.HTTPFailed
    | Discord.ReactException e => Discord.Raised e
    | Discord.ReactResponse status users0 =>
        if decide (status = 200%Z)
        then if Discord.human_reacted users0
             then Discord.Decided
                    (bool_decide (Discord.DENY_EMOJI = Discord.APPROVE_EMOJI))
             else Discord.Nothing
        else Discord.Nothing
    end = Discord.HTTPFailed
    \/ match react mid Discord.DENY_EMOJI with
       | Discord.ReactHTTPError => Discord.HTTPFailed
       | Discord.ReactException e => Discord.Raised e
       | Discord.ReactResponse status users0 =>
           if decide (status = 200%Z)
           then if Discord.human_reacted users0
                then Discord.Decided
                       (bool_decide (Discord.DENY_EMOJI = Discord.APPROVE_EMOJI))
                else Discord.Nothing
           else Discord.Nothing
       end = Discord.Nothing).
  { destruct (react mid Discord.DENY_EMOJI) as [|e'|st' users'];
      [left; reflexivity | discriminate |].
    destruct (decide (st' = 200%Z)) as [->|]; [|right; reflexivity].
    cbn in Hd. destruct (Discord.human_reacted users');
      [discriminate | right; reflexivity]. }
  destruct (decide (st = 200%Z)) as [->|]; [|exact Hdeny].
  cbn in Ha. destruct (Discord.human_reacted users); [discriminate | exact Hdeny].
Qed.

Lemma actuated_later deadline p trace mid emoji :
  Discord.actuated deadline trace mid emoji ->
  Discord.actuated deadline (p :: trace) mid emoji.
Proof.
  intros (now & react & users & Hin & H). exists now, react, users.
  split; [right; exact Hin | exact H].
Qed.

Lemma react_loop_decision deadline mid (trace : list (Z * Discord.Reactions)) :
  forall b,
  Discord.react_loop deadline mid trace = Some (Returns b) ->
  Discord.actuated deadline trace mid
    (if b then Discord.APPROVE_EMOJI else Discord.DENY_EMOJI)
  \/ (b = true /\ exists now react, (now, react) ∈ trace /\ (deadline <= now)%Z).
Proof.
  induction trace as [|[now react] trace IH]; intros b H;
    cbn [Discord.react_loop] in H; [discriminate|].
  assert (Hrec :
    Discord.react_loop deadline mid trace = Some (Returns b) ->
    Discord.actuated deadline ((now, react) :: trace) mid
      (if b then Discord.APPROVE_EMOJI else Discord.DENY_EMOJI)
    \/ (b = true
        /\ exists now' react', (now', react') ∈ (now, react) :: trace
                               /\ (deadline <= now')%Z)).
  { intros Hl. destruct (IH _ Hl) as [Hp|[Hb (n' & r' & Hin & Hd)]].
    - left. apply actuated_later. exact Hp.
    - right. split; [exact Hb|]. exists n', r'. split; [right; exact Hin|exact Hd]. }
  destruct (Z.ltb_spec now deadline) as [Hlt|Hge].
  - destruct (Discord.check_reactions react mid
                [Discord.APPROVE_EMOJI; Discord.DENY_EMOJI]) as [b'|e| |] eqn:Ec;
      try discriminate; auto.
    injection H as <-. left.
    destruct (check_reactions_decided _ _ _ Ec) as (users & Hr & Hh).
    exists now, react, users. split; [left|]. auto.
  - injection H as <-. right. split; [reflexivity|].
    exists now, react. split; [left | exact Hge].
Qed.

Lemma react_loop_timeout deadline mid (pre : list (Z * Discord.Reactions)) :
  forall now react post,
  Forall (fun p => Discord.undecided mid (snd p) = true) pre ->
  (deadline <= now)%Z ->
  Discord.react_loop deadline mid (pre ++ (now, react) :: post)
  = Some (Returns true).
Proof.
  induction pre as [|[n0 r0] pre IH]; intros now react post Hq Hd;
    cbn [app Discord.react_loop].
  - destruct (Z.ltb_spec now deadline); [lia|]. reflexivity.
  - inversion Hq as [|? ? Hq0 Hq']; subst. cbn in Hq0.
    destruct (Z.ltb_spec n0 deadline); [|reflexivity].
    destruct (check_reactions_undecided _ _ Hq0) as [-> | ->]; apply IH; auto.
Qed.

(** C8, at an input where the Discord channel departs from it.  The chat
    holds two messages: the latest one was posted for another session and
    phase, the other one is the approval message of this event.  A person
    put the cross on the latest message; on the approval message there is
    only the bot's own reaction.  [wait_for_response] takes [messages[0]]
    and returns [False], a decision read from a control that does not
    belong to this event's session and phase, where its docstring says
    "Poll for reactions on the approval message". *)
Lemma discord_polls_latest_message_not_approval_message :
  Discord.wait_for_response Sample.discord Sample.approval 3600 0
    (Discord.FetchMessages [Sample.latest_message; Sample.approval_message])
    [(5%Z, Sample.cross_on_latest)]
  = Some (Returns false)
  /\ Discord.message_of Sample.approval Sample.approval_message
  /\ ~ Discord.message_of Sample.approval Sample.latest_message
  /\ (forall emoji,
        Sample.cross_on_latest (Discord.msg_id Sample.approval_message) emoji
        = Discord.ReactResponse 200 [Sample.the_bot])
  /\ Sample.cross_on_latest (Discord.msg_id Sample.latest_message)
       Discord.DENY_EMOJI
     = Discord.ReactResponse 200 [Sample.the_bot; Sample.person].
Proof.
  split; [reflexivity|]. split; [split; reflexivity|].
  split; [intros [H _]; discriminate H|].
  split; [intros []; reflexivity | reflexivity].
Qed.

(** What [wait_for_response] returns, for both chat channels, in terms of
    the clock read at the test of the polling loop.  Telegram: [False]
    only from a turn entered with the clock below the deadline whose poll
    succeeded with a callback carrying the deny data of this event, and
    [True] only from such a turn with the approve data or from a loop test
    at or after the deadline.  Discord: [False] only from a turn entered
    with the clock below the deadline in which the cross of a user who is
    not a bot was read on the first message fetched, and [True] only from
    such a turn with a check mark, from a loop test at or after the
    deadline, or when it cannot wait at all (no capability, messages not
    available, no message).  For both, when no earlier turn decided or
    raised, the loop test made at or after the deadline makes the call
    return [True]. *)
Theorem chat_wait_for_response (ev : NotificationEvent) (timeout start : Z) :
  (forall (ch : Telegram.TelegramChannel) trace b ch',
      Telegram.wait_for_response ch ev timeout start trace
      = Some (Returns b, ch') ->
      Telegram.pressed (start + timeout) trace
        (if b then Telegram.approve_data ev else Telegram.deny_data ev)
      \/ (b = true
          /\ exists now r, (now, r) ∈ trace /\ (start + timeout <= now)%Z))
  /\ (forall (ch : Telegram.TelegramChannel) pre now r post,
        Forall (fun p => Telegram.undecided ev (snd p) = true) pre ->
        (start + timeout <= now)%Z ->
        exists ch',
          Telegram.wait_for_response ch ev timeout start
            (pre ++ (now, r) :: post) = Some (Returns true, ch'))
  /\ (forall (ch : Discord.DiscordChannel) fetched trace b,
        Discord.wait_for_response ch ev timeout start fetched trace
        = Some (Returns b) ->
        (b = true
         /\ (Discord.supports_responses ch = false
             \/ fetched = Discord.FetchException
             \/ fetched = Discord.FetchMessages []
             \/ exists m rest, fetched = Discord.FetchMessages (m :: rest)
                               /\ Discord.msg_id m = ""))
        \/ exists m rest,
             fetched = Discord.FetchMessages (m :: rest)
             /\ (Discord.actuated (start + timeout) trace (Discord.msg_id m)
                   (if b then Discord.APPROVE_EMOJI else Discord.DENY_EMOJI)
                 \/ (b = true
                     /\ exists now react,
                          (now, react) ∈ trace /\ (start + timeout <= now)%Z)))
  /\ (forall (ch : Discord.DiscordChannel) m rest pre now react post,
        Discord.supports_responses ch = true ->
        Discord.msg_id m <> "" ->
        Forall (fun p => Discord.undecided (Discord.msg_id m) (snd p) = true)
               pre ->
        (start + timeout <= now)%Z ->
        Discord.wait_for_response ch ev timeout start
          (Discord.FetchMessages (m :: rest)) (pre ++ (now, react) :: post)
        = Some (Returns true)).
Proof.
  split; [|split; [|split]].
  - intros ch trace b ch' H. unfold Telegram.wait_for_response in H.
    destruct (Telegram.poll_loop ev (start + timeout)
                (Telegram._last_update_id ch) trace) as [[o l]|] eqn:E;
      [|discriminate].
    injection H as -> _. eapply poll_loop_decision. exact E.
  - intros ch pre now r post Hq Hd. unfold Telegram.wait_for_response.
    destruct (poll_loop_timeout ev (start + timeout) pre
                (Telegram._last_update_id ch) now r post Hq Hd) as (l & ->).
    eauto.
  - intros ch fetched trace b H. unfold Discord.wait_for_response in H.
    destruct (Discord.supports_responses ch) eqn:Hs; cbn in H;
      [|injection H as <-; left; auto].
    destruct fetched as [|[|m rest]];
      [injection H as <-; left; auto 6 ..|].
    destruct (Discord.msg_id m) as [|a mid] eqn:Hid; cbn in H.
    + injection H as <-. left. split; [reflexivity|].
      right. right. right. exists m, rest. auto.
    + right. exists m, rest. split; [reflexivity|].
      rewrite Hid. apply react_loop_decision. exact H.
  - intros ch m rest pre now react post Hs Hid Hq Hd.
    unfold Discord.wait_for_response. rewrite Hs. cbn.
    destruct (Discord.msg_id m) as [|a mid] eqn:E; [congruence|]. cbn.
    apply react_loop_timeout; assumption.
Qed.

(** An instance: in both chats no turn of the loop brings a decision for
    this event; a deny waiting when the loop test fails is not read. *)
Lemma chat_wait_for_response_witness :
  (exists ch',
      Telegram.wait_for_response Sample.telegram Sample.approval 3600 0
        ([(10%Z, Telegram.PollData true [Sample.other_press]);
          (40%Z, Telegram.PollHTTPError)]
         ++ (3600%Z, Telegram.PollData true [Sample.deny_press]) :: [])
      = Some (Returns true, ch'))
  /\ Discord.wait_for_response Sample.discord Sample.approval 3600 0
       (Discord.FetchMessages [Sample.approval_message])
       ([(5%Z, Sample.only_bot); (10%Z, Sample.cross_on_latest)]
        ++ (3601%Z, Sample.cross_on_latest) :: [])
     = Some (Returns true).
Proof.
  destruct (chat_wait_for_response Sample.approval 3600 0)
    as (_ & Ht & _ & Hd).
  split.
  - apply Ht; [repeat constructor | vm_compute; discriminate].
  - apply Hd; [reflexivity | discriminate | repeat constructor
               | vm_compute; discriminate].
Defined.

(** A deny for this event read in the second turn is returned. *)
Example telegram_deny_is_returned :
  fst <$> Telegram.wait_for_response Sample.telegram Sample.approval 3600 0
            [(10%Z, Telegram.PollData true [Sample.other_press]);
             (40%Z, Telegram.PollData true [Sample.deny_press])]
  = Some (Returns false).
Proof. reflexivity. Qed.

(** * Further properties of the code *)

(** ** Router: registrations *)

(** X1: after any sequence of registrations on a new router, the channel
    list is the registered channels in registration order (a channel
    registered twice is listed twice), and every listed channel has a
    filter entry under its name that is not empty: the default of
    [filters.get] in [_matches] is never needed, and no registration can
    mute a channel. *)
Theorem registrations_keep_order_and_filters
    (regs : list (NotificationChannel * option (list string))) :
  channels (register_all new_router regs) = map fst regs
  /\ forall ch, ch ∈ channels (register_all new_router regs) ->
       exists f, filters (register_all new_router regs) !! name ch = Some f
                 /\ f <> [].
Proof.
  split; [apply (register_all_channels regs new_router)|].
  induction regs as [|[c evs] regs IH] using rev_ind.
  - cbn. intros ch H. inversion H.
  - rewrite register_all_snoc. intros ch H. cbn in H |- *.
    destruct (decide (name c = name ch)) as [E|E].
    + rewrite E, lookup_insert_eq. eexists. split; [reflexivity|].
      destruct evs as [[|e es]|]; discriminate.
    + rewrite lookup_insert_ne by exact E. apply IH.
      apply elem_of_app in H as [H|H]; [exact H|].
      apply list_elem_of_singleton in H. congruence.
Qed.

(** ** Router: dispatch *)

Lemma received_sends_replicate ch ev (l : list NotificationChannel) :
  received ch (map (fun c => CSend c ev) l)
  = replicate (length (filter (fun c => c = ch) l)) ev.
Proof.
  induction l as [|c l IH]; [reflexivity|].
  cbn [map]. unfold received in *. cbn [omap list_omap].
  destruct (decide (c = ch)) as [E|E].
  - rewrite filter_cons_True by exact E. cbn. f_equal. exact IH.
  - rewrite filter_cons_False by exact E. exact IH.
Qed.

(** X2: one [dispatch] sends the event to a channel exactly as many times
    as the channel is registered with a matching filter, in whatever order
    the loop runs the sends: once for a channel registered once, never for
    a channel that does not match. *)
Theorem dispatch_delivers_once_per_registration
    {World : Type}
    (chan_send : NotificationChannel -> NotificationEvent -> World
                 -> outcome unit * World)
    (r : NotificationRouter) (ev : NotificationEvent)
    (picks : list nat) (s : LoopState World) :
  exists s' extra,
    dispatch chan_send r ev picks s = (Returns tt, s')
    /\ calls s' = calls s ++ extra
    /\ forall ch,
         received ch extra
         = replicate (length (filter (fun c => c = ch) (matching r ev))) ev.
Proof.
  destruct (dispatch_spec chan_send r ev picks s)
    as (s' & order & E & _ & P & (extra & Hc & Hv)).
  exists s', extra. split; [exact E|]. split; [exact Hc|].
  intros ch. rewrite <- received_channel_calls, Hv, received_sends_replicate.
  f_equal. rewrite P. reflexivity.
Qed.

(** ** Router: approval *)

(** The channel a call is made on. *)
Lemma request_approval_calls_in_bidirectional
    (bi : list NotificationChannel) (ev : NotificationEvent)
    (fin pend : list NotificationChannel)
    (done : list (NotificationChannel * outcome bool)) (c : Call) :
  fin ++ pend ≡ₚ bi -> map fst done = fin ->
  c ∈ map (fun ch => CSend ch ev) bi
        ++ map (fun ch => CCreateWaitTask ch ev) bi
        ++ map (fun p => CWaitDone (fst p) ev (snd p)) done
        ++ map CCancel pend ->
  exists ch, ch ∈ bi
             /\ (c = CSend ch ev \/ c = CCreateWaitTask ch ev
                 \/ (exists o, c = CWaitDone ch ev o) \/ c = CCancel ch).
Proof.
  intros P M H.
  rewrite !elem_of_app in H. destruct H as [H|[H|[H|H]]];
    apply list_elem_of_fmap in H as [x [-> Hx]].
  - exists x. auto.
  - exists x. auto.
  - exists (fst x). split; [|eauto 6].
    rewrite <- P, <- M. apply elem_of_app. left.
    apply list_elem_of_fmap. eauto.
  - exists x. split; [|auto]. rewrite <- P. apply elem_of_app. auto.
Qed.

Lemma request_approval_touches_only_matching_aux
    {World : Type}
    (chan_send : NotificationChannel -> NotificationEvent -> World
                 -> outcome unit * World)
    (chan_wait_for_response : NotificationChannel -> NotificationEvent -> World
                              -> outcome bool * World)
    (r : NotificationRouter) (ev : NotificationEvent)
    (sched : WaitSchedule) (s : LoopState World) :
  exists b s' extra,
    request_approval chan_send chan_wait_for_response r ev sched s
    = (Returns b, s')
    /\ calls s' = calls s ++ extra
    /\ background s'
       = background s ++ map (fun ch => (ch, ev)) (notify_only r ev)
    /\ forall c, c ∈ channel_calls extra ->
         exists ch, ch ∈ bidirectional r ev
                    /\ (c = CSend ch ev \/ c = CCreateWaitTask ch ev
                        \/ (exists o, c = CWaitDone ch ev o)
                        \/ c = CCancel ch).
Proof.
  destruct (request_approval_spec chan_send chan_wait_for_response r ev sched s)
    as (b & s' & E & B & [(_ & _ & Hc)
                         |(fin & pend & done & _ & P & M & _ & _ & C)]).
  - exists b, s', []. split; [exact E|].
    split; [rewrite app_nil_r; exact Hc|]. split; [exact B|].
    intros c H. inversion H.
  - destruct C as (extra & Hc & Hv).
    exists b, s', extra. split; [exact E|]. split; [exact Hc|].
    split; [exact B|].
    intros c H. rewrite Hv in H.
    eapply request_approval_calls_in_bidirectional; [|exact M|exact H].
    eapply pick_some_perm. exact P.
Qed.

(** X3: [request_approval] calls no channel but the matching
    bidirectional ones, and always with the event it was given: a send, a
    task created, a task finished or a cancellation.  The matching
    notify-only channels get exactly one background send each and are
    never waited for; a channel that does not match is not touched. *)
Theorem request_approval_touches_only_matching
    {World : Type}
    (chan_send : NotificationChannel -> NotificationEvent -> World
                 -> outcome unit * World)
    (chan_wait_for_response : NotificationChannel -> NotificationEvent -> World
                              -> outcome bool * World)
    (r : NotificationRouter) (ev : NotificationEvent)
    (sched : WaitSchedule) (s : LoopState World) :
  exists b s' extra,
    request_approval chan_send chan_wait_for_response r ev sched s
    = (Returns b, s')
    /\ calls s' = calls s ++ extra
    /\ background s'
       = background s ++ map (fun ch => (ch, ev)) (notify_only r ev)
    /\ forall c, c ∈ channel_calls extra ->
         exists ch, ch ∈ bidirectional r ev
                    /\ (c = CSend ch ev \/ c = CCreateWaitTask ch ev
                        \/ (exists o, c = CWaitDone ch ev o)
                        \/ c = CCancel ch).
Proof.
  apply request_approval_touches_only_matching_aux.
Qed.

(** X4: [request_approval] never answers deny by itself: when it returns
    [False], a matching bidirectional channel's [wait_for_response]
    returned [False]. *)
Theorem request_approval_denies_only_on_channel_deny
    {World : Type}
    (chan_send : NotificationChannel -> NotificationEvent -> World
                 -> outcome unit * World)
    (chan_wait_for_response : NotificationChannel -> NotificationEvent -> World
                              -> outcome bool * World)
    (r : NotificationRouter) (ev : NotificationEvent)
    (sched : WaitSchedule) (s : LoopState World) :
  fst (request_approval chan_send chan_wait_for_response r ev sched s)
  = Returns false ->
  exists ch w, ch ∈ bidirectional r ev
               /\ fst (chan_wait_for_response ch ev w) = Returns false.
Proof.
  intros H.
  destruct (request_approval_spec chan_send chan_wait_for_response r ev sched s)
    as (b & s' & E & _ & [(_ & -> & _)
                         |(fin & pend & done & _ & P & M & F & Hb & _)]).
  - rewrite E in H. discriminate H.
  - rewrite E in H. cbn in H. injection H as ->.
    destruct (resolve_cases (map snd (run_order (iter_order sched) done)))
      as [Hin|[Ht _]]; [|congruence].
    rewrite <- Hb in Hin.
    apply list_elem_of_fmap in Hin as [[c o] [Ho Hin]]. cbn in Ho. subst o.
    rewrite (run_order_perm (iter_order sched) done) in Hin.
    rewrite Forall_forall in F. destruct (F _ Hin) as [w Hw]. cbn in Hw.
    exists c, w. split; [|exact Hw].
    rewrite <- (pick_some_perm _ _ _ _ P), <- M. apply elem_of_app. left.
    apply list_elem_of_fmap. exists (c, Returns false). auto.
Qed.

(** An instance: two chat channels, one failing and one answering deny. *)
Lemma request_approval_denies_only_on_channel_deny_witness :
  fst (request_approval Sample.send_ok Sample.wait_fail_or_deny
         (register_all new_router [(Sample.chat_a, None); (Sample.chat_b, None)])
         Sample.approval Sample.both_done Sample.idle)
  = Returns false
  /\ exists ch w,
       ch ∈ bidirectional
              (register_all new_router
                 [(Sample.chat_a, None); (Sample.chat_b, None)])
              Sample.approval
       /\ fst (Sample.wait_fail_or_deny ch Sample.approval w) = Returns false.
Proof.
  split; [reflexivity|].
  apply (request_approval_denies_only_on_channel_deny
           Sample.send_ok Sample.wait_fail_or_deny _ _ Sample.both_done
           Sample.idle).
  reflexivity.
Defined.

(** ** The checkpoint bridge *)

(** X5: neither method of the bridge raises, and every call it causes
    carries the event it built from the handler's session id and the
    phase and summary given.  [notify] only sends, and only to channels
    whose filter matches [phase_completed]: it creates no task and hands
    nothing to the loop.  [request_approval] calls only bidirectional
    channels whose filter matches [checkpoint_approval], and hands one
    send of the same event to the loop for each matching notify-only
    channel. *)
Theorem bridge_calls_carry_the_built_event
    {World : Type}
    (chan_send : NotificationChannel -> NotificationEvent -> World
                 -> outcome unit * World)
    (chan_wait_for_response : NotificationChannel -> NotificationEvent -> World
                              -> outcome bool * World)
    (h : Checkpoint.ChannelCheckpointHandler) (phase summary now : string)
    (picks : list nat) (sched : WaitSchedule) (s : LoopState World) :
  (exists s' extra,
      Checkpoint.notify chan_send h phase summary now picks s = (Returns tt, s')
      /\ calls s' = calls s ++ extra
      /\ background s' = background s
      /\ forall c, c ∈ channel_calls extra ->
           exists ch,
             c = CSend ch
                   (mkEvent PHASE_COMPLETED INFO (Checkpoint.handler_session_id h)
                      phase ("Phase complete: " ++ phase) summary ∅ false now)
             /\ ch ∈ channels (Checkpoint.router h)
             /\ _matches (Checkpoint.router h) ch
                  (Checkpoint.notify_event h phase summary now) = true)
  /\ (exists b s' extra,
        Checkpoint.request_approval chan_send chan_wait_for_response h
          phase summary now sched s = (Returns b, s')
        /\ calls s' = calls s ++ extra
        /\ background s'
           = background s
             ++ map (fun ch =>
                       (ch, mkEvent CHECKPOINT_APPROVAL WARNING
                              (Checkpoint.handler_session_id h) phase
                              ("Approval needed: " ++ phase) summary ∅ true now))
                    (notify_only (Checkpoint.router h)
                       (Checkpoint.approval_event h phase summary now))
        /\ forall c, c ∈ channel_calls extra ->
             exists ch,
               ch ∈ bidirectional (Checkpoint.router h)
                      (Checkpoint.approval_event h phase summary now)
               /\ (c = CSend ch (Checkpoint.approval_event h phase summary now)
                   \/ c = CCreateWaitTask ch
                            (Checkpoint.approval_event h phase summary now)
                   \/ (exists o,
                         c = CWaitDone ch
                               (Checkpoint.approval_event h phase summary now) o)
                   \/ c = CCancel ch)).
Proof.
  split.
  - unfold Checkpoint.notify.
    destruct (dispatch_spec chan_send (Checkpoint.router h)
                (Checkpoint.notify_event h phase summary now) picks s)
      as (s' & order & E & B & P & (extra & Hc & Hv)).
    exists s', extra. split; [exact E|]. split; [exact Hc|]. split; [exact B|].
    intros c H. rewrite Hv in H.
    apply list_elem_of_fmap in H as [ch [-> Hin]].
    exists ch. split; [reflexivity|].
    rewrite P in Hin. unfold matching in Hin.
    apply list_elem_of_filter in Hin as [Hm Hin]. auto.
  - unfold Checkpoint.request_approval.
    apply request_approval_touches_only_matching_aux.
Qed.

(** ** Telegram: buttons and callbacks *)

Lemma approve_is_not_deny (ev ev' : NotificationEvent) :
  Telegram.approve_data ev <> Telegram.deny_data ev'.
Proof. unfold Telegram.approve_data, Telegram.deny_data. cbn. discriminate. Qed.

Lemma scan_updates_first_decisive ev (before : list Telegram.Update) :
  forall (u : Telegram.Update) (after : list Telegram.Update) (last : Z),
  forallb (fun u =>
             negb (bool_decide (Telegram.data_of u = Telegram.approve_data ev))
             && negb (bool_decide (Telegram.data_of u = Telegram.deny_data ev)))
          before = true ->
  (Telegram.data_of u = Telegram.approve_data ev ->
   Telegram.scan_updates ev (before ++ u :: after) last
   = (Some true, (Telegram.update_id u + 1)%Z))
  /\ (Telegram.data_of u = Telegram.deny_data ev ->
      Telegram.scan_updates ev (before ++ u :: after) last
      = (Some false, (Telegram.update_id u + 1)%Z)).
Proof.
  induction before as [|b before IH]; intros u after last H.
  - cbn [app Telegram.scan_updates]. split; intros E.
    + destruct (decide (Telegram.data_of u = Telegram.approve_data ev));
        [reflexivity | contradiction].
    + destruct (decide (Telegram.data_of u = Telegram.approve_data ev)) as [E'|_].
      * rewrite E in E'. symmetry in E'. destruct (approve_is_not_deny _ _ E').
      * destruct (decide (Telegram.data_of u = Telegram.deny_data ev));
          [reflexivity | contradiction].
  - cbn [forallb] in H. apply andb_true_iff in H as [Hb H].
    apply andb_true_iff in Hb as [Ha Hd].
    apply negb_true_iff, bool_decide_eq_false in Ha, Hd.
    cbn [app Telegram.scan_updates].
    destruct (decide (Telegram.data_of b = Telegram.approve_data ev));
      [contradiction|].
    destruct (decide (Telegram.data_of b = Telegram.deny_data ev));
      [contradiction|].
    apply IH. exact H.
Qed.

Lemma poll_loop_skips_undecided ev deadline
    (pre : list (Z * Telegram.PollResult)) :
  forall (last : Z) (rest : list (Z * Telegram.PollResult)),
  Forall (fun p => (fst p < deadline)%Z
                   /\ Telegram.undecided ev (snd p) = true) pre ->
  exists last',
    Telegram.poll_loop ev deadline last (pre ++ rest)
    = Telegram.poll_loop ev deadline last' rest.
Proof.
  induction pre as [|[n0 r0] pre IH]; intros last rest H; cbn [app].
  - exists last. reflexivity.
  - inversion H as [|? ? [Hlt Hq] H']; subst. cbn [fst snd] in Hlt, Hq.
    cbn [Telegram.poll_loop].
    destruct (Z.ltb_spec n0 deadline); [|lia].
    destruct r0 as [|e|[|] updates]; try discriminate Hq; try (apply IH; exact H').
    pose proof (scan_updates_undecided ev updates last Hq) as Hs.
    destruct (Telegram.scan_updates ev updates last) as [o l']. cbn in Hs.
    subst o. apply IH. exact H'.
Qed.

(** X6: the buttons [send] attaches and the callbacks [wait_for_response]
    reads fit together.  For an event with [requires_response], the
    payload has one row of two buttons.  After any number of turns of the
    polling loop that neither decide nor raise, a turn entered with the
    clock below the deadline whose poll returns an update carrying the
    callback data of the first button (after updates that carry neither)
    makes the wait return [True]; with the data of the second button it
    returns [False]; in both cases the cursor is left just after that
    update, so the updates behind it in the same batch are asked for again
    by the next poll. *)
Theorem telegram_buttons_round_trip
    (ch : Telegram.TelegramChannel) (ev : NotificationEvent) :
  requires_response ev = true ->
  exists approve deny,
    Telegram.reply_markup (Telegram.send_payload ch ev) = Some [[approve; deny]]
    /\ forall (timeout start now uid : Z) (cb_id : string) (from_bot : bool)
              (before after : list Telegram.Update)
              (earlier rest : list (Z * Telegram.PollResult)),
         Forall (fun p => (fst p < start + timeout)%Z
                          /\ Telegram.undecided ev (snd p) = true) earlier ->
         (now < start + timeout)%Z ->
         forallb (fun u =>
                    negb (bool_decide
                            (Telegram.data_of u = Telegram.approve_data ev))
                    && negb (bool_decide
                               (Telegram.data_of u = Telegram.deny_data ev)))
                 before = true ->
         let press (b : Telegram.Button) :=
           Telegram.mkUpdate uid
             (Some (Telegram.mkCallbackQuery cb_id (Telegram.callback_data b)
                      from_bot)) in
         let after_press :=
           Telegram.mkTelegramChannel (Telegram.token ch) (Telegram.chat_id ch)
             (Telegram._base_url ch) (uid + 1)%Z (Telegram.supports_responses ch) in
         Telegram.wait_for_response ch ev timeout start
           (earlier
            ++ (now, Telegram.PollData true (before ++ press approve :: after))
            :: rest)
         = Some (Returns true, after_press)
         /\ Telegram.wait_for_response ch ev timeout start
              (earlier
               ++ (now, Telegram.PollData true (before ++ press deny :: after))
               :: rest)
            = Some (Returns false, after_press).
Proof.
  intros Hr. unfold Telegram.send_payload. rewrite Hr. cbn [Telegram.reply_markup].
  eexists _, _. split; [reflexivity|].
  intros timeout start now uid cb_id from_bot before after earlier rest
         Hearlier Hnow Hbefore.
  cbv zeta. unfold Telegram.wait_for_response. cbn [Telegram.callback_data].
  change ("approve:" ++ session_id ev ++ ":" ++ phase ev)%string
    with (Telegram.approve_data ev).
  change ("deny:" ++ session_id ev ++ ":" ++ phase ev)%string
    with (Telegram.deny_data ev).
  split.
  - destruct (poll_loop_skips_undecided ev (start + timeout) earlier
                (Telegram._last_update_id ch)
                ((now, Telegram.PollData true
                         (before
                          ++ Telegram.mkUpdate uid
                               (Some (Telegram.mkCallbackQuery cb_id
                                        (Telegram.approve_data ev) from_bot))
                          :: after)) :: rest) Hearlier) as (last' & El).
    rewrite El. cbn [Telegram.poll_loop].
    destruct (Z.ltb_spec now (start + timeout)); [|lia].
    destruct (scan_updates_first_decisive ev before
                (Telegram.mkUpdate uid
                   (Some (Telegram.mkCallbackQuery cb_id
                            (Telegram.approve_data ev) from_bot)))
                after last' Hbefore) as [Ha _].
    rewrite (Ha eq_refl). reflexivity.
  - destruct (poll_loop_skips_undecided ev (start + timeout) earlier
                (Telegram._last_update_id ch)
                ((now, Telegram.PollData true
                         (before
                          ++ Telegram.mkUpdate uid
                               (Some (Telegram.mkCallbackQuery cb_id
                                        (Telegram.deny_data ev) from_bot))
                          :: after)) :: rest) Hearlier) as (last' & El).
    rewrite El. cbn [Telegram.poll_loop].
    destruct (Z.ltb_spec now (start + timeout)); [|lia].
    destruct (scan_updates_first_decisive ev before
                (Telegram.mkUpdate uid
                   (Some (Telegram.mkCallbackQuery cb_id
                            (Telegram.deny_data ev) from_bot)))
                after last' Hbefore) as [_ Hd].
    rewrite (Hd eq_refl). reflexivity.
Qed.

(** An instance: the approval event of the samples; the deny arrives in
    the third turn, after a turn with a foreign button and a failed poll. *)
Lemma telegram_buttons_round_trip_witness :
  requires_response Sample.approval = true
  /\ exists approve deny,
       Telegram.reply_markup (Telegram.send_payload Sample.telegram Sample.approval)
       = Some [[approve; deny]]
       /\ Telegram.wait_for_response Sample.telegram Sample.approval 3600 0
            ([(3%Z, Telegram.PollData true [Sample.other_press]);
              (8%Z, Telegram.PollHTTPError)]
             ++ (12%Z, Telegram.PollData true
                         ([Sample.other_press]
                          ++ Telegram.mkUpdate 9
                               (Some (Telegram.mkCallbackQuery "cb3"
                                        (Telegram.callback_data deny) false))
                          :: [Sample.deny_press]))
             :: [])
          = Some (Returns false,
                  Telegram.mkTelegramChannel "123:ABC" "456"
                    "https://api.telegram.org/bot123:ABC" 10 true).
Proof.
  split; [reflexivity|].
  destruct (telegram_buttons_round_trip Sample.telegram Sample.approval eq_refl)
    as (approve & deny & Hm & Hw).
  exists approve, deny. split; [exact Hm|].
  apply (Hw 3600%Z 0%Z 12%Z 9%Z "cb3" false [Sample.other_press]
            [Sample.deny_press]
            [(3%Z, Telegram.PollData true [Sample.other_press]);
             (8%Z, Telegram.PollHTTPError)] []);
    [repeat constructor | reflexivity | reflexivity].
Defined.

Lemma colon_separated_parts (s : string) :
  forall s' p p' : string,
  Telegram.colon_free s = true -> Telegram.colon_free s' = true ->
  (s ++ ":" ++ p)%string = (s' ++ ":" ++ p')%string ->
  s = s' /\ p = p'.
Proof.
  induction s as [|c s IH]; intros s' p p' Hs Hs' E.
  - destruct s' as [|c' s']; cbn in E.
    + injection E as E. auto.
    + injection E as Ec _. subst c'. cbn in Hs'. discriminate Hs'.
  - destruct s' as [|c' s']; cbn in E.
    + injection E as Ec _. subst c. cbn in Hs. discriminate Hs.
    + injection E as Ec E. subst c'.
      cbn in Hs, Hs'. apply andb_true_iff in Hs as [_ Hs].
      apply andb_true_iff in Hs' as [_ Hs'].
      destruct (IH s' p p' Hs Hs' E) as [-> ->]. auto.
Qed.

(** X7: when session ids contain no colon, the callback data of a button
    determines the session id and the phase it was made for: two events
    whose approve data (or whose deny data) are equal have the same
    session id and the same phase, so a button of another session or
    phase is never taken for this event's. *)
Theorem callback_data_identifies_event (ev ev' : NotificationEvent) :
  Telegram.colon_free (session_id ev) = true ->
  Telegram.colon_free (session_id ev') = true ->
  Telegram.approve_data ev = Telegram.approve_data ev'
  \/ Telegram.deny_data ev = Telegram.deny_data ev' ->
  session_id ev = session_id ev' /\ phase ev = phase ev'.
Proof.
  intros Hs Hs' [E|E]; unfold Telegram.approve_data, Telegram.deny_data in E;
    cbn in E; injection E as E;
    exact (colon_separated_parts _ _ _ _ Hs Hs' E).
Qed.

(** An instance: the approval event against itself. *)
Lemma callback_data_identifies_event_witness :
  Telegram.colon_free (session_id Sample.approval) = true
  /\ (Telegram.approve_data Sample.approval = Telegram.approve_data Sample.approval
      \/ Telegram.deny_data Sample.approval = Telegram.deny_data Sample.approval)
  /\ session_id Sample.approval = session_id Sample.approval
  /\ phase Sample.approval = phase Sample.approval.
Proof.
  split; [reflexivity|]. split; [left; reflexivity|].
  apply (callback_data_identifies_event Sample.approval Sample.approval);
    [reflexivity | reflexivity | left; reflexivity].
Defined.

(** With a colon in the session id the data is ambiguous: session
    [a:b] with phase [c] and session [a] with phase [b:c] share their
    buttons. *)
Example callback_data_collision :
  Telegram.deny_data (mkEvent CHECKPOINT_APPROVAL WARNING "a:b" "c" "" "" ∅ true "")
  = Telegram.deny_data (mkEvent CHECKPOINT_APPROVAL WARNING "a" "b:c" "" "" ∅ true "").
Proof. reflexivity. Qed.

(** ** Discord: capability and reactions *)

(** X8: a Discord channel built without a bot token or without a channel
    id never uses the bot API: every event, approval requests included,
    is posted through the webhook, and [wait_for_response] returns [True]
    at once, without fetching messages or polling reactions. *)
Theorem discord_without_bot_credentials
    (webhook_url bot_token channel_id : string) :
  bot_token = "" \/ channel_id = "" ->
  forall ev : NotificationEvent,
    Discord.send (Discord.init webhook_url bot_token channel_id) ev
    = Discord.ViaWebhook (Discord._build_embed ev)
    /\ forall (timeout start : Z) (fetched : Discord.FetchResult)
              (trace : list (Z * Discord.Reactions)),
         Discord.wait_for_response
           (Discord.init webhook_url bot_token channel_id) ev timeout start
           fetched trace
         = Some (Returns true).
Proof.
  intros H ev.
  assert (Hs : Discord.supports_responses
                 (Discord.init webhook_url bot_token channel_id) = false).
  { unfold Discord.init. cbn.
    destruct H as [-> | ->]; [reflexivity|].
    destruct bot_token; reflexivity. }
  split.
  - unfold Discord.send. rewrite Hs, andb_false_r. reflexivity.
  - intros timeout start fetched trace.
    unfold Discord.wait_for_response. rewrite Hs. reflexivity.
Qed.

(** An instance: only the webhook URL is configured. *)
Lemma discord_without_bot_credentials_witness :
  (@eq string "" "" \/ @eq string "" "")
  /\ Discord.send (Discord.init "https://discord.com/api/webhooks/X/Y" "" "")
       Sample.approval
     = Discord.ViaWebhook (Discord._build_embed Sample.approval)
  /\ Discord.wait_for_response
       (Discord.init "https://discord.com/api/webhooks/X/Y" "" "")
       Sample.approval 3600 0 Discord.FetchException []
     = Some (Returns true).
Proof.
  split; [left; reflexivity|].
  destruct (discord_without_bot_credentials
              "https://discord.com/api/webhooks/X/Y" "" ""
              (or_introl eq_refl) Sample.approval) as [Hs Hw].
  split; [exact Hs | apply Hw].
Defined.

Lemma check_reactions_deny_without_approve react mid :
  Discord.check_reactions react mid [Discord.APPROVE_EMOJI; Discord.DENY_EMOJI]
  = Discord.Decided false ->
  exists status users,
    react mid Discord.APPROVE_EMOJI = Discord.ReactResponse status users
    /\ (status <> 200%Z \/ Discord.human_reacted users = false).
Proof.
  cbn [Discord.check_reactions].
  destruct (react mid Discord.APPROVE_EMOJI) as [|e|st users] eqn:Ea;
    try discriminate.
  intros H. exists st, users. split; [reflexivity|].
  destruct (decide (st = 200%Z)) as [->|Hne]; [|left; exact Hne].
  destruct (Discord.human_reacted users); [|right; reflexivity].
  cbn in H. discriminate H.
Qed.

Lemma react_loop_deny_poll deadline mid (trace : list (Z * Discord.Reactions)) :
  Discord.react_loop deadline mid trace = Some (Returns false) ->
  exists now react,
    (now, react) ∈ trace /\ (now < deadline)%Z
    /\ Discord.check_reactions react mid
         [Discord.APPROVE_EMOJI; Discord.DENY_EMOJI] = Discord.Decided false.
Proof.
  induction trace as [|[now react] trace IH]; intros H;
    cbn [Discord.react_loop] in H; [discriminate|].
  assert (Hrec :
    Discord.react_loop deadline mid trace = Some (Returns false) ->
    exists now' react',
      (now', react') ∈ (now, react) :: trace /\ (now' < deadline)%Z
      /\ Discord.check_reactions react' mid
           [Discord.APPROVE_EMOJI; Discord.DENY_EMOJI] = Discord.Decided false).
  { intros Hl. destruct (IH Hl) as (n' & r' & Hin & Hlt & Hc).
    exists n', r'. split; [right; exact Hin | auto]. }
  destruct (Z.ltb_spec now deadline) as [Hlt|Hge]; [|discriminate].
  destruct (Discord.check_reactions react mid
              [Discord.APPROVE_EMOJI; Discord.DENY_EMOJI]) as [b|e| |] eqn:Ec;
    try discriminate; auto.
  injection H as ->. exists now, react. split; [left | auto].
Qed.

(** X9: on Discord the check mark is looked at first.  Whenever
    [wait_for_response] returns [False], it is from one turn of the
    polling loop in which the cross of a user who is not a bot was read on
    the first message fetched, and in which the check-mark reactions of
    that message had been read without a human among them (or with a
    status other than 200): a person's check mark read in the same turn
    always wins over a cross. *)
Theorem discord_deny_only_without_human_approve
    (ch : Discord.DiscordChannel) (ev : NotificationEvent) (timeout start : Z)
    (fetched : Discord.FetchResult) (trace : list (Z * Discord.Reactions)) :
  Discord.wait_for_response ch ev timeout start fetched trace
  = Some (Returns false) ->
  exists m rest turn react users_deny status users_approve,
    fetched = Discord.FetchMessages (m :: rest)
    /\ (turn, react) ∈ trace
    /\ react (Discord.msg_id m) Discord.DENY_EMOJI
       = Discord.ReactResponse 200 users_deny
    /\ Discord.human_reacted users_deny = true
    /\ react (Discord.msg_id m) Discord.APPROVE_EMOJI
       = Discord.ReactResponse status users_approve
    /\ (status <> 200%Z \/ Discord.human_reacted users_approve = false).
Proof.
  intros H. unfold Discord.wait_for_response in H.
  destruct (Discord.supports_responses ch); cbn in H; [|discriminate].
  destruct fetched as [|[|m rest]]; try discriminate.
  destruct (truthy (Discord.msg_id m)); cbn in H; [|discriminate].
  destruct (react_loop_deny_poll _ _ _ H) as (now & react & Hin & Hlt & Hc).
  destruct (check_reactions_decided _ _ _ Hc) as (ud & Hd & Hhd).
  destruct (check_reactions_deny_without_approve _ _ Hc) as (st & ua & Ha & Hna).
  exists m, rest, now, react, ud, st, ua. cbn in Hd. auto 10.
Qed.

(** An instance: the cross of a person on the latest message. *)
Lemma discord_deny_only_without_human_approve_witness :
  Discord.wait_for_response Sample.discord Sample.approval 3600 0
    (Discord.FetchMessages [Sample.latest_message; Sample.approval_message])
    [(5%Z, Sample.only_bot); (10%Z, Sample.cross_on_latest)]
  = Some (Returns false)
  /\ exists m rest turn react users_deny status users_approve,
       Discord.FetchMessages [Sample.latest_message; Sample.approval_message]
       = Discord.FetchMessages (m :: rest)
       /\ (turn, react) ∈ [(5%Z, Sample.only_bot); (10%Z, Sample.cross_on_latest)]
       /\ react (Discord.msg_id m) Discord.DENY_EMOJI
          = Discord.ReactResponse 200 users_deny
       /\ Discord.human_reacted users_deny = true
       /\ react (Discord.msg_id m) Discord.APPROVE_EMOJI
          = Discord.ReactResponse status users_approve
       /\ (status <> 200%Z \/ Discord.human_reacted users_approve = false).
Proof.
  split; [reflexivity|].
  apply (discord_deny_only_without_human_approve
           Sample.discord Sample.approval 3600 0).
  reflexivity.
Defined.

(** ** E-mail: what happens to the events *)

Lemma email_send_conserves (now : Z) (ev : NotificationEvent)
    (ch : Email.EmailChannel) :
  Email.to_addrs ch <> [] ->
  concat (map Email.body (snd (Email.send now ev ch)))
  ++ Email._pending (fst (Email.send now ev ch))
  = Email._pending ch ++ [ev]
  /\ Email.to_addrs (fst (Email.send now ev ch)) = Email.to_addrs ch.
Proof.
  intros Hto.
  destruct (send_email_with_recipient ch (Email._pending ch ++ [ev]) Hto)
    as (m & Em & Bm); [destruct (Email._pending ch); discriminate|].
  unfold Email.send.
  destruct (Email.immediate ev).
  - rewrite Em. cbn. rewrite Bm, !app_nil_r. auto.
  - destruct (Email.min_interval ch <=? now - Email._last_sent ch)%Z.
    + rewrite Em. cbn. rewrite Bm, !app_nil_r. auto.
    + cbn. auto.
Qed.

(** X10: with at least one recipient configured, no event given to
    [send] is lost, duplicated or reordered: after any sequence of calls,
    the bodies of the messages handed to SMTP, in order, followed by the
    queue, are exactly the events queued at the start followed by the
    events sent. *)
Theorem email_no_event_lost (evs : list (Z * NotificationEvent)) :
  forall ch : Email.EmailChannel,
  Email.to_addrs ch <> [] ->
  concat (map Email.body (snd (Email.send_all evs ch)))
  ++ Email._pending (fst (Email.send_all evs ch))
  = Email._pending ch ++ map snd evs.
Proof.
  induction evs as [|[now ev] evs IH]; intros ch Hto; cbn [Email.send_all map snd].
  - cbn. rewrite app_nil_r. reflexivity.
  - destruct (email_send_conserves now ev ch Hto) as [Hc Ht].
    destruct (Email.send now ev ch) as [ch1 out1]. cbn [fst snd] in Hc, Ht.
    assert (Hto1 : Email.to_addrs ch1 <> []) by (rewrite Ht; exact Hto).
    specialize (IH ch1 Hto1).
    destruct (Email.send_all evs ch1) as [ch2 out2]. cbn [fst snd] in IH |- *.
    rewrite map_app, concat_app, <- app_assoc, IH, app_assoc, Hc, <- app_assoc.
    reflexivity.
Qed.

(** An instance: the mailbox of the samples over a whole session. *)
Lemma email_no_event_lost_witness :
  Email.to_addrs Sample.mailbox <> []
  /\ concat (map Email.body
               (snd (Email.send_all
                       [(9999%Z, Sample.event SESSION_STARTED);
                        (10000%Z, Sample.event PHASE_STARTED);
                        (10005%Z, Sample.event FINDING);
                        (10020%Z, Sample.event SESSION_COMPLETED);
                        (10030%Z, Sample.event HEARTBEAT)] Sample.mailbox)))
     ++ Email._pending
          (fst (Email.send_all
                  [(9999%Z, Sample.event SESSION_STARTED);
                   (10000%Z, Sample.event PHASE_STARTED);
                   (10005%Z, Sample.event FINDING);
                   (10020%Z, Sample.event SESSION_COMPLETED);
                   (10030%Z, Sample.event HEARTBEAT)] Sample.mailbox))
     = Email._pending Sample.mailbox
       ++ map snd [(9999%Z, Sample.event SESSION_STARTED);
                   (10000%Z, Sample.event PHASE_STARTED);
                   (10005%Z, Sample.event FINDING);
                   (10020%Z, Sample.event SESSION_COMPLETED);
                   (10030%Z, Sample.event HEARTBEAT)].
Proof.
  assert (H : Email.to_addrs Sample.mailbox <> []) by discriminate.
  split; [exact H|].
  apply (email_no_event_lost _ Sample.mailbox H).
Defined.

(** X11: a channel without recipient never hands a message to SMTP,
    whatever is sent to it and whenever; a critical or terminal event
    still empties its queue, so the queued events are discarded. *)
Theorem email_without_recipient_is_silent (ch : Email.EmailChannel) :
  Email.to_addrs ch = [] ->
  (forall evs : list (Z * NotificationEvent), snd (Email.send_all evs ch) = [])
  /\ (forall (now : Z) (ev : NotificationEvent),
        Email.immediate ev = true ->
        Email.send now ev ch = (Email.set_state ch now [], [])).
Proof.
  intros Hto.
  assert (Hs : forall c events, Email.to_addrs c = [] ->
                                Email._send_email c events = []).
  { intros c events Hc. unfold Email._send_email. rewrite Hc.
    destruct events; reflexivity. }
  split.
  - intros evs. revert ch Hto.
    induction evs as [|[now ev] evs IH]; intros ch Hto; [reflexivity|].
    cbn [Email.send_all].
    assert (H1 : snd (Email.send now ev ch) = []
                 /\ Email.to_addrs (fst (Email.send now ev ch)) = []).
    { unfold Email.send.
      destruct (Email.immediate ev);
        [|destruct (Email.min_interval ch <=? now - Email._last_sent ch)%Z];
        cbn; rewrite ?Hs by exact Hto; auto. }
    destruct (Email.send now ev ch) as [ch1 out1]. cbn in H1.
    destruct H1 as [-> Hto1]. specialize (IH ch1 Hto1).
    destruct (Email.send_all evs ch1) as [ch2 out2]. cbn in IH |- *. exact IH.
  - intros now ev Hi. unfold Email.send. rewrite Hi, Hs by exact Hto.
    reflexivity.
Qed.

(** An instance: the channel built with every default. *)
Lemma email_without_recipient_is_silent_witness :
  Email.to_addrs (Email.init_default 60) = []
  /\ snd (Email.send_all
            [(100%Z, Sample.event FINDING);
             (200%Z, Sample.event SESSION_FAILED)] (Email.init_default 60)) = [].
Proof.
  split; [reflexivity|].
  apply (proj1 (email_without_recipient_is_silent (Email.init_default 60)
                  eq_refl)).
Defined.

(** X12: the queue only ever holds events that are neither critical nor
    session-terminal, no message is empty, and one call of [send] hands at
    most one message to SMTP. *)
Theorem email_queue_holds_no_urgent_event (evs : list (Z * NotificationEvent)) :
  forall ch : Email.EmailChannel,
  Forall (fun ev => Email.immediate ev = false) (Email._pending ch) ->
  Forall (fun ev => Email.immediate ev = false)
         (Email._pending (fst (Email.send_all evs ch)))
  /\ Forall (fun m => Email.body m <> []) (snd (Email.send_all evs ch))
  /\ (length (snd (Email.send_all evs ch)) <= length evs)%nat.
Proof.
  induction evs as [|[now ev] evs IH]; intros ch Hp; cbn [Email.send_all].
  - cbn. split; [exact Hp|]. split; [constructor | lia].
  - assert (H1 : Forall (fun ev => Email.immediate ev = false)
                        (Email._pending (fst (Email.send now ev ch)))
                 /\ Forall (fun m => Email.body m <> [])
                           (snd (Email.send now ev ch))
                 /\ (length (snd (Email.send now ev ch)) <= 1)%nat).
    { assert (Hm : forall events,
                Forall (fun m => Email.body m <> []) (Email._send_email ch events)
                /\ (length (Email._send_email ch events) <= 1)%nat).
      { intros events. unfold Email._send_email.
        destruct events as [|e es]; [cbn; split; [constructor|lia]|].
        destruct (Email.to_addrs ch); cbn; split;
          try constructor; try discriminate; try constructor; lia. }
      unfold Email.send. destruct (Email.immediate ev) eqn:Hi.
      - cbn. split; [constructor | apply Hm].
      - destruct (Email.min_interval ch <=? now - Email._last_sent ch)%Z; cbn.
        + split; [constructor | apply Hm].
        + split; [|split; [constructor | lia]].
          apply Forall_app. split; [exact Hp|]. constructor; [exact Hi|constructor]. }
    destruct (Email.send now ev ch) as [ch1 out1]. cbn [fst snd] in H1.
    destruct H1 as (Hp1 & Hb1 & Hl1).
    destruct (IH ch1 Hp1) as (Hp2 & Hb2 & Hl2).
    destruct (Email.send_all evs ch1) as [ch2 out2]. cbn [fst snd] in *.
    split; [exact Hp2|]. split; [apply Forall_app; auto|].
    rewrite length_app. cbn [length]. lia.
Qed.

(** An instance: a new channel, whose queue is empty. *)
Lemma email_queue_holds_no_urgent_event_witness :
  Forall (fun ev => Email.immediate ev = false) (Email._pending Sample.mailbox)
  /\ Forall (fun ev => Email.immediate ev = false)
            (Email._pending
               (fst (Email.send_all
                       [(9999%Z, Sample.event SESSION_STARTED);
                        (10000%Z, Sample.event PHASE_STARTED);
                        (10001%Z, Sample.event SESSION_FAILED);
                        (10002%Z, Sample.event FINDING)] Sample.mailbox))).
Proof.
  assert (H : Forall (fun ev => Email.immediate ev = false)
                     (Email._pending Sample.mailbox)) by constructor.
  split; [exact H|].
  apply (proj1 (email_queue_holds_no_urgent_event _ Sample.mailbox H)).
Defined.

(** X20: the message of an urgent event.  With a recipient configured,
    the one message a critical or session-terminal event produces has the
    subject "[ApolloBot] " followed by the title of that event and, when
    events were queued, by their number as " (+n more)"; it goes to the
    configured addresses joined by ", ", from the configured sender. *)
Theorem email_urgent_message_header (ch : Email.EmailChannel) (now : Z)
    (ev : NotificationEvent) :
  Email.to_addrs ch <> [] ->
  Email.immediate ev = true ->
  exists m,
    snd (Email.send now ev ch) = [m]
    /\ Email.msg_subject m
       = ("[ApolloBot] " ++ title ev
          ++ match Email._pending ch with
             | [] => ""
             | _ :: _ => " (+" ++ pretty (length (Email._pending ch)) ++ " more)"
             end)%string
    /\ Email.msg_to m = Email.join ", " (Email.to_addrs ch)
    /\ Email.msg_from m = Email.from_addr ch.
Proof.
  intros Hto Hi. unfold Email.send. rewrite Hi. cbn [snd].
  unfold Email._send_email.
  destruct (Email._pending ch ++ [ev]) as [|e0 es] eqn:Ep;
    [destruct (Email._pending ch); discriminate|].
  destruct (Email.to_addrs ch) as [|a l] eqn:Et; [congruence|].
  eexists. split; [reflexivity|]. cbn [Email.msg_subject Email.msg_to Email.msg_from].
  split; [|split; reflexivity].
  rewrite <- Ep. unfold Email.subject_of. rewrite last_snoc, length_app.
  cbn [length]. f_equal. f_equal.
  destruct (Email._pending ch) as [|p ps]; cbn [length].
  - reflexivity.
  - destruct (decide (1 < S (length ps) + 1)%nat); [|lia].
    replace (S (length ps) + 1 - 1)%nat with (S (length ps)) by lia.
    reflexivity.
Qed.

(** An instance: two events queued in the mailbox, then a failure. *)
Lemma email_urgent_message_header_witness :
  Email.to_addrs Sample.mailbox <> []
  /\ Email.immediate (Sample.event SESSION_FAILED) = true
  /\ exists m,
       snd (Email.send 10010%Z (Sample.event SESSION_FAILED)
              (Email.set_state Sample.mailbox 9999
                 [Sample.event PHASE_STARTED; Sample.event FINDING]))
       = [m]
       /\ Email.msg_subject m = "[ApolloBot] Test event (+2 more)".
Proof.
  split; [discriminate|]. split; [reflexivity|].
  destruct (email_urgent_message_header
              (Email.set_state Sample.mailbox 9999
                 [Sample.event PHASE_STARTED; Sample.event FINDING])
              10010%Z (Sample.event SESSION_FAILED)
              ltac:(discriminate) eq_refl) as (m & Hm & Hs & _).
  exists m. split; [exact Hm|]. rewrite Hs. reflexivity.
Defined.

(** ** Heartbeat: what is dispatched, and when *)

Lemma heartbeat_step_keeps_session render (m : Heartbeat.HeartbeatMonitor)
    (a : Heartbeat.Action) :
  Heartbeat.hb_session_id (fst (Heartbeat.step render m a))
  = Heartbeat.hb_session_id m.
Proof.
  destruct a; cbn; try reflexivity.
  - unfold Heartbeat.start. destruct (Heartbeat.interval m <=? 0)%Z; reflexivity.
  - unfold Heartbeat.stop. destruct (Heartbeat._task m) as [t|]; [|reflexivity].
    destruct (negb (Heartbeat.done m t)); reflexivity.
  - destruct (Heartbeat.done m task); reflexivity.
Qed.

(** X13: whatever is done with a monitor, every event it passes to
    [router.dispatch] is a heartbeat of its own session: type
    [heartbeat], severity [info], the monitor's session id, the title
    "Heartbeat", and no response required. *)
Theorem heartbeat_events_are_heartbeats
    (render : Z -> string -> Z -> Z -> string)
    (acts : list Heartbeat.Action) :
  forall m : Heartbeat.HeartbeatMonitor,
  Forall (fun ev => event_type ev = HEARTBEAT
                    /\ severity ev = INFO
                    /\ session_id ev = Heartbeat.hb_session_id m
                    /\ title ev = "Heartbeat"
                    /\ requires_response ev = false)
         (snd (Heartbeat.run render m acts)).
Proof.
  induction acts as [|a acts IH]; intros m; cbn [Heartbeat.run].
  - constructor.
  - pose proof (heartbeat_step_keeps_session render m a) as Hs.
    assert (H1 : Forall (fun ev => event_type ev = HEARTBEAT
                                   /\ severity ev = INFO
                                   /\ session_id ev = Heartbeat.hb_session_id m
                                   /\ title ev = "Heartbeat"
                                   /\ requires_response ev = false)
                        (snd (Heartbeat.step render m a))).
    { destruct a; cbn; try constructor.
      destruct (Heartbeat.done m task); cbn; repeat constructor. }
    destruct (Heartbeat.step render m a) as [m1 d1]. cbn [fst snd] in Hs, H1.
    specialize (IH m1). rewrite Hs in IH.
    destruct (Heartbeat.run render m1 acts) as [m2 d2]. cbn [snd] in IH |- *.
    apply Forall_app. auto.
Qed.





Lemma heartbeat_updates_run render (ups : list (string * Z * Z)) :
  forall m : Heartbeat.HeartbeatMonitor,
  exists m',
    Heartbeat.run render m
      (map (fun u => Heartbeat.UpdateStatus (fst (fst u)) (snd (fst u)) (snd u))
           ups)
    = (m', [])
    /\ Heartbeat.loop_tasks m' = Heartbeat.loop_tasks m
    /\ Heartbeat.hb_session_id m' = Heartbeat.hb_session_id m
    /\ Heartbeat._current_phase m'
       = default (Heartbeat._current_phase m)
           (last (filter (fun p => truthy p = true)
                         (map (fun u => fst (fst u)) ups))).
Proof.
  induction ups as [|[[p d] c] ups IH]; intros m; cbn [map Heartbeat.run].
  - exists m. auto.
  - cbn [Heartbeat.step fst snd].
    destruct (IH (Heartbeat.update_status p d c m))
      as (m' & E & Ht & Hs & Hp).
    exists m'. rewrite E. split; [reflexivity|].
    split; [exact Ht|]. split; [exact Hs|].
    rewrite Hp. cbn [Heartbeat.update_status Heartbeat._current_phase].
    destruct (truthy p) eqn:Etp.
    + rewrite filter_cons_True by exact Etp. rewrite last_cons.
      destruct (last (filter (fun p0 => truthy p0 = true)
                             (map (fun u => fst (fst u)) ups))); reflexivity.
    + rewrite filter_cons_False by congruence. reflexivity.
Qed.

(** X15: the phase a heartbeat reports is the last non-empty phase
    passed to [update_status], or the phase the monitor had before when
    none was named: an update with an empty phase never erases it. *)
Theorem heartbeat_reports_last_named_phase
    (render : Z -> string -> Z -> Z -> string)
    (m : Heartbeat.HeartbeatMonitor) (ups : list (string * Z * Z))
    (task : nat) (now : Z) :
  task ∈ Heartbeat.loop_tasks m ->
  exists ev,
    snd (Heartbeat.run render m
           (map (fun u => Heartbeat.UpdateStatus (fst (fst u)) (snd (fst u))
                            (snd u)) ups
            ++ [Heartbeat.TaskWakes task now]))
    = [ev]
    /\ phase ev
       = default (Heartbeat._current_phase m)
           (last (filter (fun p => truthy p = true)
                         (map (fun u => fst (fst u)) ups))).
Proof.
  intros Ht.
  destruct (heartbeat_updates_run render ups m) as (m' & E & Ht' & _ & Hp).
  assert (Happ : forall a b m0,
    Heartbeat.run render m0 (a ++ b)
    = (fst (Heartbeat.run render (fst (Heartbeat.run render m0 a)) b),
       snd (Heartbeat.run render m0 a)
       ++ snd (Heartbeat.run render (fst (Heartbeat.run render m0 a)) b))).
  { induction a as [|x a IH]; intros b m0; cbn [app Heartbeat.run].
    - cbn. destruct (Heartbeat.run render m0 b); reflexivity.
    - destruct (Heartbeat.step render m0 x) as [m1 d1]. rewrite IH.
      destruct (Heartbeat.run render m1 a) as [m2 d2]. cbn.
      rewrite app_assoc. reflexivity. }
  rewrite Happ, E. cbn [fst snd app Heartbeat.run Heartbeat.step].
  unfold Heartbeat.done. rewrite Ht'.
  rewrite (bool_decide_eq_true_2 _ Ht). cbn.
  eexists. split; [reflexivity|]. cbn. exact Hp.
Qed.

(** An instance: the phase survives an update that names none. *)
Lemma heartbeat_reports_last_named_phase_witness :
  0%nat ∈ Heartbeat.loop_tasks
            (snd (Heartbeat.start (Heartbeat.init "test-session" 300 0)))
  /\ exists ev,
       snd (Heartbeat.run (fun _ _ _ _ => "Running")
              (snd (Heartbeat.start (Heartbeat.init "test-session" 300 0)))
              (map (fun u => Heartbeat.UpdateStatus (fst (fst u)) (snd (fst u))
                               (snd u))
                   [("plan", 0%Z, 0%Z); ("analysis", 2%Z, 5%Z); ("", 3%Z, 7%Z)]
               ++ [Heartbeat.TaskWakes 0 300]))
       = [ev]
       /\ phase ev
          = default ""
              (last (filter (fun p => truthy p = true)
                            (map (fun u => fst (fst u))
                                 [("plan", 0%Z, 0%Z); ("analysis", 2%Z, 5%Z);
                                  ("", 3%Z, 7%Z)]))).
Proof.
  assert (H : 0%nat ∈ Heartbeat.loop_tasks
                (snd (Heartbeat.start (Heartbeat.init "test-session" 300 0))))
    by (cbn; left).
  split; [exact H|].
  apply (heartbeat_reports_last_named_phase (fun _ _ _ _ => "Running")
           (snd (Heartbeat.start (Heartbeat.init "test-session" 300 0)))
           _ 0%nat 300%Z H).
Defined.

(** ** Webhook: the headers of a request *)

(** X16: the headers [send] posts.  With a secret, [X-Apollo-Signature]
    is "sha256=" followed by the HMAC of the body under the secret,
    replacing a configured header of that name; without a secret it is
    absent unless configured.  [Content-Type] is [application/json]
    unless the configured headers give another value.  Every other
    header is the configured one. *)
Theorem webhook_send_headers
    (hmac_sha256_hex : string -> string -> string)
    (ch : Webhook.WebhookChannel) (body : string) :
  Webhook.send_headers hmac_sha256_hex ch body !! "X-Apollo-Signature"
  = (if truthy (Webhook.secret ch)
     then Some ("sha256=" ++ hmac_sha256_hex (Webhook.secret ch) body)%string
     else Webhook.headers ch !! "X-Apollo-Signature")
  /\ Webhook.send_headers hmac_sha256_hex ch body !! "Content-Type"
     = Some (default "application/json" (Webhook.headers ch !! "Content-Type"))
  /\ forall k : string,
       k <> "X-Apollo-Signature" -> k <> "Content-Type" ->
       Webhook.send_headers hmac_sha256_hex ch body !! k
       = Webhook.headers ch !! k.
Proof.
  assert (Hbase : forall k : string,
    (Webhook.headers ch ∪ {["Content-Type" := "application/json"]}) !! k
    = if decide (k = "Content-Type")
      then Some (default "application/json" (Webhook.headers ch !! k))
      else Webhook.headers ch !! k).
  { intros k. rewrite lookup_union, lookup_singleton.
    destruct (decide (k = "Content-Type")) as [->|Hk].
    - rewrite decide_True by reflexivity.
      destruct (Webhook.headers ch !! "Content-Type"); reflexivity.
    - rewrite decide_False by congruence.
      destruct (Webhook.headers ch !! k); reflexivity. }
  unfold Webhook.send_headers. destruct (truthy (Webhook.secret ch)).
  - split; [apply lookup_insert_eq|]. split.
    + rewrite lookup_insert_ne by discriminate. rewrite Hbase. reflexivity.
    + intros k H1 H2. rewrite lookup_insert_ne by congruence.
      rewrite Hbase, decide_False by exact H2. reflexivity.
  - split; [rewrite Hbase; reflexivity|]. split.
    + rewrite Hbase. reflexivity.
    + intros k H1 H2. rewrite Hbase, decide_False by exact H2. reflexivity.
Qed.

(** ** Building the router from the configuration *)

Lemma build_channel_known (id : nat) (cfg : Orchestrator.ChannelConfig) :
  match Orchestrator.build_channel id cfg with
  | Some ch =>
      name ch = Orchestrator.ch_type cfg
      /\ Orchestrator.ch_type cfg
           ∈ ["console"; "webhook"; "telegram"; "discord"; "slack";
              "google_chat"; "email"]
  | None =>
      Orchestrator.ch_type cfg
        ∉ ["console"; "webhook"; "telegram"; "discord"; "slack";
           "google_chat"; "email"]
  end.
Proof.
  unfold Orchestrator.build_channel.
  repeat (destruct (decide _) as [E|?];
          [rewrite E; split; [reflexivity | repeat constructor]|]).
  intros H. repeat (apply elem_of_cons in H as [H|H]; [congruence|]).
  inversion H.
Qed.

Lemma builds_spec (id : nat) (cfg : Orchestrator.ChannelConfig) :
  Orchestrator.builds cfg = true
  <-> Orchestrator.ch_enabled cfg = true
      /\ exists ch, Orchestrator.build_channel id cfg = Some ch
                    /\ name ch = Orchestrator.ch_type cfg.
Proof.
  unfold Orchestrator.builds. rewrite andb_true_iff, bool_decide_eq_true.
  pose proof (build_channel_known id cfg) as H.
  destruct (Orchestrator.build_channel id cfg) as [ch|].
  - destruct H as [Hn Hin]. split; intros [He _]; split; eauto.
  - split; intros [He H']; [contradiction|].
    destruct H' as (ch & Hch & _). discriminate Hch.
Qed.

Lemma build_loop_names (cfgs : list Orchestrator.ChannelConfig) :
  forall (id : nat) (r : NotificationRouter),
  map name (channels (Orchestrator.build_loop id cfgs r))
  = map name (channels r)
    ++ map Orchestrator.ch_type
         (filter (fun c => Orchestrator.builds c = true) cfgs).
Proof.
  induction cfgs as [|cfg cfgs IH]; intros id r; cbn [Orchestrator.build_loop].
  - cbn. rewrite app_nil_r. reflexivity.
  - pose proof (builds_spec id cfg) as Hb.
    destruct (Orchestrator.ch_enabled cfg) eqn:Een; cbn [negb].
    + destruct (Orchestrator.build_channel id cfg) as [ch|] eqn:Ech.
      * assert (Hn : name ch = Orchestrator.ch_type cfg).
        { pose proof (build_channel_known id cfg) as H. rewrite Ech in H.
          tauto. }
        rewrite filter_cons_True
          by (apply Hb; split; [reflexivity|]; exists ch; auto).
        rewrite IH. cbn. rewrite map_app, <- app_assoc. cbn. rewrite Hn.
        reflexivity.
      * rewrite filter_cons_False; [apply IH|].
        intros H. apply Hb in H as [_ (ch & Hch & _)]. discriminate Hch.
    + rewrite filter_cons_False; [apply IH|].
      intros H. apply Hb in H as [H _]. discriminate H.
Qed.

(** X17: the router built from the configuration has no channel when
    notifications are disabled; otherwise its channels are, in the order
    of the configuration, one per entry that is enabled and has one of the
    seven known types, each named after its type.  Disabled entries and
    entries of an unknown type give nothing. *)
Theorem build_router_channels (cfg : Orchestrator.NotificationsConfig) :
  map name (channels (Orchestrator._build_router cfg))
  = if Orchestrator.notif_enabled cfg
    then map Orchestrator.ch_type
           (filter (fun c => Orchestrator.builds c = true)
                   (Orchestrator.notif_channels cfg))
    else [].
Proof.
  unfold Orchestrator._build_router.
  destruct (Orchestrator.notif_enabled cfg); cbn [negb]; [|reflexivity].
  rewrite build_loop_names. reflexivity.
Qed.

Lemma build_loop_filter_other (n : string)
    (cfgs : list Orchestrator.ChannelConfig) :
  forall (id : nat) (r : NotificationRouter),
  Forall (fun c => Orchestrator.builds c = true
                   -> Orchestrator.ch_type c <> n) cfgs ->
  filters (Orchestrator.build_loop id cfgs r) !! n = filters r !! n.
Proof.
  induction cfgs as [|cfg cfgs IH]; intros id r H;
    cbn [Orchestrator.build_loop]; [reflexivity|].
  inversion H as [|? ? Hc Hrest]; subst.
  pose proof (builds_spec id cfg) as Hb.
  destruct (Orchestrator.ch_enabled cfg) eqn:Een; cbn [negb];
    [|apply IH; exact Hrest].
  destruct (Orchestrator.build_channel id cfg) as [ch|] eqn:Ech;
    [|apply IH; exact Hrest].
  assert (Hn : name ch = Orchestrator.ch_type cfg).
  { pose proof (build_channel_known id cfg) as H'. rewrite Ech in H'. tauto. }
  rewrite IH by exact Hrest. cbn.
  apply lookup_insert_ne. rewrite Hn. apply Hc.
  apply Hb. split; [reflexivity|]. exists ch. auto.
Qed.

Lemma build_loop_app (a b : list Orchestrator.ChannelConfig) :
  forall (id : nat) (r : NotificationRouter),
  Orchestrator.build_loop id (a ++ b) r
  = Orchestrator.build_loop (id + length a) b (Orchestrator.build_loop id a r).
Proof.
  induction a as [|cfg a IH]; intros id r; cbn [app Orchestrator.build_loop length].
  - rewrite Nat.add_0_r. reflexivity.
  - replace (id + S (length a))%nat with (S id + length a)%nat by lia.
    destruct (negb (Orchestrator.ch_enabled cfg)); [apply IH|].
    destruct (Orchestrator.build_channel id cfg); apply IH.
Qed.

(** X18: channels of one type share one filter.  When several enabled
    entries have the same type, every channel of that type, the earlier
    ones included, is matched against the events of the last such entry
    (an empty list meaning everything). *)
Theorem same_type_channels_share_last_filter
    (cfg : Orchestrator.NotificationsConfig)
    (pre post : list Orchestrator.ChannelConfig) (c : Orchestrator.ChannelConfig) :
  Orchestrator.notif_enabled cfg = true ->
  Orchestrator.notif_channels cfg = pre ++ c :: post ->
  Orchestrator.builds c = true ->
  Forall (fun c' => Orchestrator.builds c' = true
                    -> Orchestrator.ch_type c' <> Orchestrator.ch_type c) post ->
  forall (ch : NotificationChannel) (ev : NotificationEvent),
    name ch = Orchestrator.ch_type c ->
    _matches (Orchestrator._build_router cfg) ch ev
    = bool_decide ("*" ∈ events_or_wildcard (Some (Orchestrator.ch_events c)))
      || bool_decide (EventType_value (event_type ev)
                        ∈ events_or_wildcard (Some (Orchestrator.ch_events c))).
Proof.
  intros Hen Hcfg Hb Hpost ch ev Hname.
  unfold Orchestrator._build_router. rewrite Hen. cbn [negb].
  rewrite Hcfg, build_loop_app. cbn [Orchestrator.build_loop].
  apply (builds_spec (0 + length pre) c) in Hb as [Hce (k & Hk & Hkn)].
  rewrite Hce, Hk. cbn [negb].
  unfold _matches. rewrite Hname.
  rewrite build_loop_filter_other by exact Hpost.
  cbn [register filters]. rewrite <- Hkn, lookup_insert_eq. reflexivity.
Qed.

(** An instance: a webhook for [session_completed] followed by a webhook
    for everything; the first one gets a [phase_started] event too. *)
Lemma same_type_channels_share_last_filter_witness :
  Orchestrator.builds (Orchestrator.mkChannelConfig "webhook" true ["*"] ∅) = true
  /\ _matches
       (Orchestrator._build_router
          (Orchestrator.mkNotificationsConfig true 300
             [Orchestrator.mkChannelConfig "webhook" true ["session_completed"] ∅;
              Orchestrator.mkChannelConfig "webhook" true ["*"] ∅]))
       (mkChannel 0 "webhook" false) (Sample.event PHASE_STARTED)
     = true.
Proof.
  split; [reflexivity|].
  rewrite (same_type_channels_share_last_filter
             (Orchestrator.mkNotificationsConfig true 300
                [Orchestrator.mkChannelConfig "webhook" true ["session_completed"] ∅;
                 Orchestrator.mkChannelConfig "webhook" true ["*"] ∅])
             [Orchestrator.mkChannelConfig "webhook" true ["session_completed"] ∅]
             [] (Orchestrator.mkChannelConfig "webhook" true ["*"] ∅)
             eq_refl eq_refl eq_refl (Forall_nil_2 _)
             (mkChannel 0 "webhook" false) (Sample.event PHASE_STARTED) eq_refl).
  reflexivity.
Defined.

Lemma build_loop_notify_only (cfgs : list Orchestrator.ChannelConfig) :
  forall (id : nat) (r : NotificationRouter),
  Forall (fun c => Orchestrator.ch_type c <> "telegram"
                   /\ (Orchestrator.ch_type c = "discord" ->
                       Orchestrator.extra c "bot_token" = ""
                       \/ Orchestrator.extra c "channel_id" = "")) cfgs ->
  Forall (fun ch => supports_responses ch = false) (channels r) ->
  Forall (fun ch => supports_responses ch = false)
         (channels (Orchestrator.build_loop id cfgs r)).
Proof.
  induction cfgs as [|cfg cfgs IH]; intros id r H Hr;
    cbn [Orchestrator.build_loop]; [exact Hr|].
  inversion H as [|? ? [Ht Hd] Hrest]; subst.
  destruct (negb (Orchestrator.ch_enabled cfg)); [apply IH; assumption|].
  destruct (Orchestrator.build_channel id cfg) as [ch|] eqn:Ech;
    [|apply IH; assumption].
  apply IH; [exact Hrest|]. cbn. apply Forall_app. split; [exact Hr|].
  constructor; [|constructor].
  unfold Orchestrator.build_channel in Ech.
  repeat (destruct (decide _) as [E|?];
          [try (injection Ech as <-; reflexivity)|]);
    try discriminate Ech.
  - contradiction.
  - injection Ech as <-. cbn [supports_responses].
    unfold Discord.init. cbn [Discord.supports_responses].
    destruct (Hd E) as [-> | ->]; [reflexivity|].
    destruct (Orchestrator.extra cfg "bot_token"); reflexivity.
Qed.

(** X19: when no entry of the configuration is a Telegram channel and
    every Discord entry lacks its bot token or its channel id, the router
    built from it approves every request at once: [request_approval]
    returns [True] for every event, whatever the channels do. *)
Theorem notify_only_configuration_auto_approves
    {World : Type}
    (chan_send : NotificationChannel -> NotificationEvent -> World
                 -> outcome unit * World)
    (chan_wait_for_response : NotificationChannel -> NotificationEvent -> World
                              -> outcome bool * World)
    (cfg : Orchestrator.NotificationsConfig)
    (ev : NotificationEvent) (sched : WaitSchedule) (s : LoopState World) :
  Forall (fun c => Orchestrator.ch_type c <> "telegram"
                   /\ (Orchestrator.ch_type c = "discord" ->
                       Orchestrator.extra c "bot_token" = ""
                       \/ Orchestrator.extra c "channel_id" = ""))
         (Orchestrator.notif_channels cfg) ->
  fst (request_approval chan_send chan_wait_for_response
         (Orchestrator._build_router cfg) ev sched s)
  = Returns true.
Proof.
  intros H.
  assert (Hall : Forall (fun ch => supports_responses ch = false)
                        (channels (Orchestrator._build_router cfg))).
  { unfold Orchestrator._build_router.
    destruct (negb (Orchestrator.notif_enabled cfg)); [constructor|].
    apply build_loop_notify_only; [exact H | constructor]. }
  assert (Hb : bidirectional (Orchestrator._build_router cfg) ev = []).
  { unfold bidirectional, matching.
    induction (channels (Orchestrator._build_router cfg)) as [|c l IH];
      [reflexivity|].
    inversion Hall as [|? ? Hc Hl]; subst.
    destruct (decide (_matches (Orchestrator._build_router cfg) c ev = true)).
    - rewrite filter_cons_True by assumption.
      rewrite filter_cons_False by congruence. apply IH. exact Hl.
    - rewrite filter_cons_False by assumption. apply IH. exact Hl. }
  destruct (request_approval_spec chan_send chan_wait_for_response
              (Orchestrator._build_router cfg) ev sched s)
    as (b & s' & E & _ & [(_ & -> & _)|(fin & pend & done & Hne & _)]).
  - rewrite E. reflexivity.
  - contradiction.
Qed.

(** An instance: console, e-mail and a Discord webhook without bot. *)
Lemma notify_only_configuration_auto_approves_witness :
  fst (request_approval Sample.send_boom Sample.wait_deny
         (Orchestrator._build_router
            (Orchestrator.mkNotificationsConfig true 300
               [Orchestrator.mkChannelConfig "console" true ["*"] ∅;
                Orchestrator.mkChannelConfig "email" true [] ∅;
                Orchestrator.mkChannelConfig "discord" true ["*"]
                  {["webhook_url" := "https://discord.com/api/webhooks/X/Y"]}]))
         Sample.approval Sample.first_only Sample.idle)
  = Returns true.
Proof.
  apply (notify_only_configuration_auto_approves Sample.send_boom Sample.wait_deny).
  repeat constructor; try discriminate; cbn; auto.
Defined.
